(** * Sigma.js renderer: a shallow embedding of [Sigma] and its helpers

  The development follows the source file of the renderer: the functions
  [applyNodeDefaults] and [applyEdgeDefaults], then the class [Sigma].  Its
  first part holds the definitions, one module per concern of the class
  (defaults, [process], the refresh scheduler, the coordinate methods, the
  display-data getters); its second part holds the properties.

  - A JavaScript object used as a record or as a dictionary is the finite
    map of its own properties ([gmap string value]); [hasOwnProperty] is
    definedness of the lookup (the method is the one every object inherits),
    and reading an absent property of a display data object gives
    [VUndefined].  Where the renderer indexes a plain object by a key that
    comes from the graph or from the caller (the counters and the programs
    of [process], the two display-data caches read by the getters), what the
    object inherits from [Object.prototype] is part of the lookup.
  - JavaScript numbers are idealised as exact rationals ([Qc], canonical
    fractions, so that equality of numbers is Leibniz equality).  Rounding,
    NaN and the infinities are outside the model.
  - A method that may throw returns an [outcome]: [Done] with the new state,
    or [Threw] with the error and the state reached when it was raised.
  - The collaborators that live in other files (graph, quadtree, label
    grid, WebGL programs, frame callbacks, camera matrices) appear as logged
    calls, as section variables, or as definitions modelled from the spec
    and marked so. *)

From stdpp Require Import base strings gmap list.
From Stdlib Require Import QArith Qcanon DecimalString Field.

Close Scope Qc_scope.
Close Scope Q_scope.
Open Scope string_scope.
Open Scope list_scope.

(** ** JavaScript values and objects *)

Module JS.

Inductive value : Type :=
| VUndefined
| VNull
| VBool (b : bool)
| VNum (q : Qc)
| VStr (s : string).

#[global] Instance value_eq_dec : EqDecision value.
Proof. solve_decision. Defined.

(** A plain object: its own properties. *)
Abbreviation obj := (gmap string value).

(** [o.k]: the value of the property, [undefined] when it is absent. *)
Definition get (o : obj) (k : string) : value := default VUndefined (o !! k).

(** [o.hasOwnProperty(k)]. *)
Definition hasOwnProperty (o : obj) (k : string) : bool := bool_decide (is_Some (o !! k)).

(** ToBoolean: [undefined], [null], [false], [0] and the empty string are
  falsy. *)
Definition truthy (v : value) : bool :=
match v with
| VUndefined | VNull => false
| VBool b => b
| VNum q => negb (bool_decide (q = 0%Qc))
| VStr s => negb (bool_decide (s = ""))
end.

Definition num (z : Z) : value := VNum (Q2Qc (inject_Z z)).

(** The property names that a plain object, created as [{}], inherits from
  [Object.prototype].  Under [__proto__] it inherits an accessor whose getter
  returns the prototype of the object and whose setter replaces it when
  given an object, and ignores anything else; under every other name a
  writable method (under [constructor] the function [Object]). *)
Definition object_prototype_members : list string :=
["constructor"; "__defineGetter__"; "__defineSetter__"; "hasOwnProperty";
 "__lookupGetter__"; "__lookupSetter__"; "isPrototypeOf"; "propertyIsEnumerable";
 "toString"; "valueOf"; "__proto__"; "toLocaleString"].

Section Conversions.
(** Number::toString works on binary64 floats; it stays a parameter. *)
Variable numberToString : Qc → string.

(** ToString, as used by [("" + v)] and by property keys. *)
Definition to_string (v : value) : string :=
  match v with
  | VUndefined => "undefined"
  | VNull => "null"
  | VBool true => "true"
  | VBool false => "false"
  | VNum q => numberToString q
  | VStr s => s
  end.
End Conversions.

End JS.
Import JS.

(** ** Errors and outcomes *)

Inductive error : Type :=
| PositionError (key : string)      (* "could not find a valid position (x, y) for node ..." *)
| NodeProgramError (type : string)  (* "could not find a suitable program for node type ..." *)
| EdgeProgramError (type : string)  (* "could not find a suitable program for edge type ..." *)
| NoWidthError                      (* "container has no width." *)
| NoHeightError                     (* "container has no height." *)
| TypeError.                        (* raised by the runtime: a call of something that is no function *)

#[global] Instance error_eq_dec : EqDecision error.
Proof. solve_decision. Defined.

(** The result of a method that may throw: a returned value with the new
  state, or the error with the state reached when it was raised (what was
  mutated before a [throw] stays mutated). *)
Inductive outcome (A S : Type) : Type :=
| Done (a : A) (s : S)
| Threw (e : error) (s : S).
Arguments Done {A S} a s.
Arguments Threw {A S} e s.

Definition bind {A B S : Type} (m : outcome A S) (k : A → S → outcome B S) : outcome B S :=
match m with
| Done a s => k a s
| Threw e s => Threw e s
end.

Definition final {A S : Type} (m : outcome A S) : S :=
match m with Done _ s | Threw _ s => s end.

Definition thrown {A S : Type} (m : outcome A S) : option error :=
match m with Done _ _ => None | Threw e _ => Some e end.

(** ** Display-data defaults *)

Module Defaults.

Record Settings : Type := {
defaultNodeColor : string;
defaultNodeType : string;
defaultEdgeColor : string;
defaultEdgeType : string;
zIndex : bool;
nodeReducer : option (string → obj → obj);
edgeReducer : option (string → obj → obj);
}.

Section WithToString.
Variable numberToString : Qc → string.

(** [if (!data.k) data.k = d;] *)
Definition default_if_falsy (k : string) (d : value) (data : obj) : obj :=
  if truthy (get data k) then data else <[k := d]> data.

(** [if (!data.hasOwnProperty(k)) data.k = d;] *)
Definition default_if_absent (k : string) (d : value) (data : obj) : obj :=
  if hasOwnProperty data k then data else <[k := d]> data.

(** The two statements on [data.label] of [applyNodeDefaults]. *)
Definition node_label (data : obj) : obj :=
  let data1 :=
    if negb (truthy (get data "label")) && negb (bool_decide (get data "label" = VStr ""))
    then <["label" := VNull]> data else data in
  if negb (bool_decide (get data1 "label" = VUndefined))
     && negb (bool_decide (get data1 "label" = VNull))
  then <["label" := VStr (to_string numberToString (get data1 "label"))]> data1
  else <["label" := VNull]> data1.

(** [if (!data.type || data.type === "") data.type = d;] *)
Definition default_type (d : string) (data : obj) : obj :=
  if negb (truthy (get data "type")) || bool_decide (get data "type" = VStr "")
  then <["type" := VStr d]> data else data.

Definition applyNodeDefaults (settings : Settings) (key : string) (data : obj)
  : error + obj :=
  if negb (hasOwnProperty data "x") || negb (hasOwnProperty data "y")
  then inl (PositionError key)
  else
    let data := default_if_falsy "color" (VStr (defaultNodeColor settings)) data in
    let data := node_label data in
    let data := default_if_falsy "size" (num 2) data in
    let data := default_if_absent "hidden" (VBool false) data in
    let data := default_if_absent "highlighted" (VBool false) data in
    let data := default_type (defaultNodeType settings) data in
    let data := default_if_falsy "zIndex" (num 0) data in
    inr data.

Definition applyEdgeDefaults (settings : Settings) (key : string) (data : obj) : obj :=
  let data := default_if_falsy "color" (VStr (defaultEdgeColor settings)) data in
  let data := default_if_falsy "label" (VStr "") data in
  let data := default_if_falsy "size" (VNum (Q2Qc (1 # 2))) data in
  let data := default_if_absent "hidden" (VBool false) data in
  let data := default_type (defaultEdgeType settings) data in
  let data := default_if_falsy "zIndex" (num 0) data in
  data.

End WithToString.

End Defaults.

(** ** Numbers shared by the geometry: extents and bounding boxes *)

Module Geometry.

(** [Extent = [number, number]]. *)
Definition Extent : Type := Qc * Qc.

(** [{ x: Extent; y: Extent }]. *)
Record BBox : Type := { bbox_x : Extent; bbox_y : Extent }.

Definition two : Qc := Q2Qc (2 # 1).

End Geometry.
Import Geometry.

(** ** Enumeration order of [for (const k in o)] *)

Module Keys.

(** A property name is an array index when it is the canonical decimal
  writing of an integer below 2^32 - 1. *)
Definition array_index (s : string) : option N :=
match NilEmpty.uint_of_string s with
| Some u =>
    let n := N.of_uint u in
    if bool_decide (NilEmpty.string_of_uint (N.to_uint n) = s) && (n <? 4294967295)%N
    then Some n else None
| None => None
end.

Fixpoint insert_by_index {A : Type} (n : N) (kv : string * A)
  (l : list (N * (string * A))) : list (N * (string * A)) :=
match l with
| [] => [(n, kv)]
| (m, kv') :: l' =>
    if (n <=? m)%N then (n, kv) :: l else (m, kv') :: insert_by_index n kv l'
end.

Fixpoint index_keys {A : Type} (l : list (string * A)) : list (N * (string * A)) :=
match l with
| [] => []
| kv :: l' =>
    match array_index kv.1 with
    | Some n => insert_by_index n kv (index_keys l')
    | None => index_keys l'
    end
end.

Definition is_index (s : string) : bool :=
match array_index s with Some _ => true | None => false end.

(** The own properties of an object created as [{}] and filled by
  assignment, given in creation order, as [for ... in] visits them: array
  indices first, in ascending order, then the other names in creation
  order. *)
Definition for_in {A : Type} (l : list (string * A)) : list (string * A) :=
(snd <$> index_keys l) ++ filter (λ kv, is_index kv.1 = false) l.

(** What a counter of [process] can hold.  The counters are declared
  [Record<string, number>], and hold numbers for every key but those named
  after a member of [Object.prototype]: there the first read finds the
  inherited member, and adding 1 to it gives a string. *)
Inductive count : Type :=
| Count (n : nat)                       (* the number [n] *)
| NaN
| Text (member : string) (ones : nat).  (* the string [Object.prototype[member]] converts
                                           to, followed by [ones] characters [1] *)

#[global] Instance count_eq_dec : EqDecision count.
Proof. solve_decision. Defined.

(** The own properties of a [Record<string, number>] created as [{}], in
  creation order. *)
Definition counter : Type := list (string * count).

(** The own property [k] of [c], if there is one. *)
Fixpoint count_of (k : string) (c : counter) : option count :=
match c with
| [] => None
| (k', n) :: c' => if decide (k = k') then Some n else count_of k c'
end.

(** The own property [k] set to [v]: updated in place, or created last. *)
Fixpoint set_count (k : string) (v : count) (c : counter) : counter :=
match c with
| [] => [(k, v)]
| (k', n) :: c' => if decide (k = k') then (k', v) :: c' else (k', n) :: set_count k v c'
end.

(** [c[k] = v], for [v] a number or a string.  Under [__proto__] the
  assignment reaches the inherited setter, which ignores what is not an
  object: no own property is created. *)
Definition assign_count (k : string) (v : count) (c : counter) : counter :=
if bool_decide (k = "__proto__") then c else set_count k v c.

(** [(c[k] || 0) + 1].  An own number is incremented ([NaN] is falsy and
  gives 1), an own string gains a [1]; with no own property the read finds
  the member inherited under [k], if any, which is truthy and turns the sum
  into a string, and [undefined] otherwise. *)
Definition incremented (k : string) (c : counter) : count :=
match count_of k c with
| Some (Count n) => Count (S n)
| Some NaN => Count 1
| Some (Text member ones) => Text member (S ones)
| None => if bool_decide (k ∈ object_prototype_members) then Text k 1 else Count 1
end.

(** [c[k] = (c[k] || 0) + 1]. *)
Definition bump (k : string) (c : counter) : counter := assign_count k (incremented k c) c.

(** [c[k]++]: the value of the expression, which is the number read, and
  the counter after the write.  What is read is [NaN] unless [k] is an own
  property that holds a number. *)
Definition post_increment (k : string) (c : counter) : count * counter :=
match count_of k c with
| Some (Count n) => (Count n, assign_count k (Count (S n)) c)
| _ => (NaN, assign_count k NaN c)
end.

(** [c[k] = 0] for every own key, as the allocation loops leave the
  counters. *)
Definition reset (c : counter) : counter := (λ kv, (kv.1, Count 0)) <$> c.

End Keys.
Import Keys.

(** ** [Sigma.process]: resolution of the display data *)

Module Process.
Import Defaults.

(** The graph collaborator, as [process] reads it. *)
Record Graph : Type := {
  nodes : list string;                      (* graph.nodes() *)
  getNodeAttributes : string → obj;
  edges : list string;                      (* graph.edges() *)
  getEdgeAttributes : string → obj;
  extremities : string → string * string;
}.

(** Calls made on the quadtree, the label grid and the WebGL programs.  A
  call that receives positions or sizes computed from the display data of an
  entity is logged with that display data. *)
Inductive Event : Type :=
| QuadtreeClear
| LabelGridResizeAndClear
| NodeAllocate (type : string) (capacity : count)
| QuadtreeAdd (node : string) (data : obj)
| LabelGridAdd (node : string) (data : obj)
| NodeProcess (type : string) (data : obj) (hidden : value) (index : count)
| LabelGridOrganize
| EdgeAllocate (type : string) (capacity : count)
| EdgeProcess (type : string) (source target data : obj) (hidden : value) (index : count)
| ComputeIndices (type : string).

(** The fields of [Sigma] that [process] reads or writes.  [nodePrograms]
  holds the registered node types, which are the own keys of
  [this.nodePrograms]; [edgePrograms] the registered edge types, the own
  keys of [this.edgePrograms] in enumeration order, each with whether its
  program has a [computeIndices] method.  The constructor registers a
  program by assignment, so [__proto__] is never among these keys.  In the
  two caches the entry under [__proto__], if any, stands for the object that
  the assignment [cache["__proto__"] = data] installs as prototype of the
  cache, and that reading [cache["__proto__"]] gives back. *)
Record Sigma : Type := {
  settings : Settings;
  graph : Graph;
  nodePrograms : list string;
  edgePrograms : list (string * bool);
  customBBox : option BBox;
  nodeExtent : BBox;
  normalizationBBox : BBox;
  nodeDataCache : gmap string obj;
  edgeDataCache : gmap string obj;
  nodeKeyToIndex : gmap string nat;
  highlightedNodes : list string;
  log : list Event;
}.

Definition emit (evs : list Event) (s : Sigma) : Sigma :=
{| settings := settings s; graph := graph s; nodePrograms := nodePrograms s;
   edgePrograms := edgePrograms s; customBBox := customBBox s;
   nodeExtent := nodeExtent s; normalizationBBox := normalizationBBox s;
   nodeDataCache := nodeDataCache s; edgeDataCache := edgeDataCache s;
   nodeKeyToIndex := nodeKeyToIndex s; highlightedNodes := highlightedNodes s;
   log := log s ++ evs |}.

Definition set_extents (ext norm : BBox) (s : Sigma) : Sigma :=
{| settings := settings s; graph := graph s; nodePrograms := nodePrograms s;
   edgePrograms := edgePrograms s; customBBox := customBBox s;
   nodeExtent := ext; normalizationBBox := norm;
   nodeDataCache := nodeDataCache s; edgeDataCache := edgeDataCache s;
   nodeKeyToIndex := nodeKeyToIndex s; highlightedNodes := highlightedNodes s;
   log := log s |}.

Definition cache_node (node : string) (data : obj) (s : Sigma) : Sigma :=
{| settings := settings s; graph := graph s; nodePrograms := nodePrograms s;
   edgePrograms := edgePrograms s; customBBox := customBBox s;
   nodeExtent := nodeExtent s; normalizationBBox := normalizationBBox s;
   nodeDataCache := <[node := data]> (nodeDataCache s); edgeDataCache := edgeDataCache s;
   nodeKeyToIndex := nodeKeyToIndex s; highlightedNodes := highlightedNodes s;
   log := log s |}.

Definition cache_edge (edge : string) (data : obj) (s : Sigma) : Sigma :=
{| settings := settings s; graph := graph s; nodePrograms := nodePrograms s;
   edgePrograms := edgePrograms s; customBBox := customBBox s;
   nodeExtent := nodeExtent s; normalizationBBox := normalizationBBox s;
   nodeDataCache := nodeDataCache s; edgeDataCache := <[edge := data]> (edgeDataCache s);
   nodeKeyToIndex := nodeKeyToIndex s; highlightedNodes := highlightedNodes s;
   log := log s |}.

Definition set_index (key : string) (i : nat) (s : Sigma) : Sigma :=
{| settings := settings s; graph := graph s; nodePrograms := nodePrograms s;
   edgePrograms := edgePrograms s; customBBox := customBBox s;
   nodeExtent := nodeExtent s; normalizationBBox := normalizationBBox s;
   nodeDataCache := nodeDataCache s; edgeDataCache := edgeDataCache s;
   nodeKeyToIndex := <[key := i]> (nodeKeyToIndex s); highlightedNodes := highlightedNodes s;
   log := log s |}.

Definition set_highlighted (hl : list string) (s : Sigma) : Sigma :=
{| settings := settings s; graph := graph s; nodePrograms := nodePrograms s;
   edgePrograms := edgePrograms s; customBBox := customBBox s;
   nodeExtent := nodeExtent s; normalizationBBox := normalizationBBox s;
   nodeDataCache := nodeDataCache s; edgeDataCache := edgeDataCache s;
   nodeKeyToIndex := nodeKeyToIndex s; highlightedNodes := hl;
   log := log s |}.

(** [Set.prototype.add]: insertion order, no duplicate. *)
Definition set_add (x : string) (l : list string) : list string :=
if bool_decide (x ∈ l) then l else l ++ [x].

(** [a || b] on values. *)
Definition js_or (a b : value) : value := if truthy a then a else b.

(** A z-index extent: [None] in the first place is the initial [Infinity],
  in the second place the initial [-Infinity]. *)
Definition ZExtent : Type := option value * option value.

(** [a < b] on two numbers.  [zIndex] is declared a number; on any other
  operand the comparison is modelled as false, which is JavaScript's answer
  whenever an operand converts to NaN. *)
Definition num_lt (a b : value) : bool :=
match a, b with
| VNum p, VNum q => bool_decide (p < q)%Qc
| _, _ => false
end.

Definition is_num (v : value) : bool :=
match v with VNum _ => true | _ => false end.

(** [if (z < ext[0]) ext[0] = z; if (z > ext[1]) ext[1] = z;] *)
Definition track_z (z : value) (ext : ZExtent) : ZExtent :=
let lo := match ext.1 with
          | None => if is_num z then Some z else None
          | Some l => if num_lt z l then Some z else Some l
          end in
let hi := match ext.2 with
          | None => if is_num z then Some z else None
          | Some h => if num_lt h z then Some z else Some h
          end in
(lo, hi).

(** [ext[0] !== ext[1]]. *)
Definition z_differ (ext : ZExtent) : bool :=
match ext with
| (Some l, Some h) => negb (bool_decide (l = h))
| _ => true
end.

Section WithCollaborators.
Variable numberToString : Qc → string.
(** [nodeExtent(graph, ["x", "y"])] of graphology-metrics. *)
Variable graphExtent : Graph → BBox.
(** [createNormalizationFunction(bbox).applyTo(data)], which rewrites
  [data.x] and [data.y] in place. *)
Variable applyTo : BBox → obj → obj.
(** [zIndexOrdering(extent, getter, elements)]. *)
Variable zIndexOrdering : ZExtent → (string → value) → list string → list string.

(** Steps 1 and 2 of the node display data resolution: the attributes (a
  shallow copy), then the reducer when there is one (its result replaces the
  attributes).  Step 3 applies the defaults. *)
Definition reducedNode (s : Sigma) (node : string) : obj :=
let attr := getNodeAttributes (graph s) node in
match nodeReducer (settings s) with
| Some reducer => reducer node attr
| None => attr
end.

Definition resolveNode (s : Sigma) (node : string) : error + obj :=
applyNodeDefaults numberToString (settings s) node (reducedNode s node).

Definition reducedEdge (s : Sigma) (edge : string) : obj :=
let attr := getEdgeAttributes (graph s) edge in
match edgeReducer (settings s) with
| Some reducer => reducer edge attr
| None => attr
end.

Definition resolveEdge (s : Sigma) (edge : string) : obj :=
applyEdgeDefaults (settings s) edge (reducedEdge s edge).

(** [data.type] used as a property key. *)
Definition type_of (data : obj) : string := to_string numberToString (get data "type").

(** The first loop over [graph.nodes()].  The cache entry and the object
  handed to [applyTo] are one object, so the cache holds the normalised
  data. *)
Fixpoint resolveNodes (l : list string) (acc : counter * ZExtent) (s : Sigma)
  : outcome (counter * ZExtent) Sigma :=
match l with
| [] => Done acc s
| node :: l' =>
    match resolveNode s node with
    | inl e => Threw e s
    | inr data =>
        let per := bump (type_of data) acc.1 in
        let data := applyTo (normalizationBBox s) data in
        let s := cache_node node data s in
        let ext := if zIndex (settings s) then track_z (get data "zIndex") acc.2 else acc.2 in
        resolveNodes l' (per, ext) s
    end
end.

(** [for (const type in nodesPerPrograms)]: the check and the allocation
  of one type, then the next type. *)
Fixpoint allocateNodePrograms (keepArrays : bool) (l : counter) (s : Sigma)
  : outcome unit Sigma :=
match l with
| [] => Done tt s
| (type, capacity) :: l' =>
    if bool_decide (type ∈ nodePrograms s)
    then allocateNodePrograms keepArrays l'
           (if keepArrays then s else emit [NodeAllocate type capacity] s)
    else Threw (NodeProgramError type) s
end.

(** [this.nodeKeyToIndex[key] = i]: under [__proto__] the assignment
  reaches the inherited setter, which ignores a number. *)
Definition record_index (key : string) (i : nat) (s : Sigma) : Sigma :=
if bool_decide (key = "__proto__") then s else set_index key i s.

(** The second loop over the nodes, from index [i].  The call
  [this.nodePrograms[data.type].process(...)] finds a program when
  [data.type] is an own key of [this.nodePrograms]; otherwise what it finds
  is [undefined] or a member of [Object.prototype], and the runtime raises a
  [TypeError]. *)
Fixpoint processNodes (l : list string) (i : nat) (per : counter) (s : Sigma)
  : outcome unit Sigma :=
match l with
| [] => Done tt s
| node :: l' =>
    let data := default ∅ (nodeDataCache s !! node) in
    let s := emit [QuadtreeAdd node data] s in
    let s := if truthy (get data "label") then emit [LabelGridAdd node data] s else s in
    let type := type_of data in
    if bool_decide (type ∈ nodePrograms s)
    then
      let '(index, per) := post_increment type per in
      let s := emit [NodeProcess type data (get data "hidden") index] s in
      let s := if truthy (get data "highlighted") && negb (truthy (get data "hidden"))
               then set_highlighted (set_add node (highlightedNodes s)) s else s in
      let s := record_index node i s in
      processNodes l' (S i) per s
    else Threw TypeError s
end.

(** The first loop over [graph.edges()]. *)
Fixpoint resolveEdges (l : list string) (acc : counter * ZExtent) (s : Sigma)
  : counter * ZExtent * Sigma :=
match l with
| [] => (acc, s)
| edge :: l' =>
    let data := resolveEdge s edge in
    let per := bump (type_of data) acc.1 in
    let s := cache_edge edge data s in
    let ext := if zIndex (settings s) then track_z (get data "zIndex") acc.2 else acc.2 in
    resolveEdges l' (per, ext) s
end.

Fixpoint allocateEdgePrograms (keepArrays : bool) (l : counter) (s : Sigma)
  : outcome unit Sigma :=
match l with
| [] => Done tt s
| (type, capacity) :: l' =>
    if bool_decide (type ∈ (edgePrograms s).*1)
    then allocateEdgePrograms keepArrays l'
           (if keepArrays then s else emit [EdgeAllocate type capacity] s)
    else Threw (EdgeProgramError type) s
end.

(** The second loop over the edges; it records the rank of an edge in
  [nodeKeyToIndex], as the source does.  As for the nodes, the call of
  [process] raises a [TypeError] when [data.type] is no own key of
  [this.edgePrograms]. *)
Fixpoint processEdges (l : list string) (i : nat) (per : counter) (s : Sigma)
  : outcome unit Sigma :=
match l with
| [] => Done tt s
| edge :: l' =>
    let data := default ∅ (edgeDataCache s !! edge) in
    let ends := extremities (graph s) edge in
    let sourceData := default ∅ (nodeDataCache s !! ends.1) in
    let targetData := default ∅ (nodeDataCache s !! ends.2) in
    let hidden := js_or (js_or (get data "hidden") (get sourceData "hidden"))
                    (get targetData "hidden") in
    let type := type_of data in
    if bool_decide (type ∈ (edgePrograms s).*1)
    then
      let '(index, per) := post_increment type per in
      let s := emit [EdgeProcess type sourceData targetData data hidden index] s in
      let s := record_index edge i s in
      processEdges l' (S i) per s
    else Threw TypeError s
end.

Definition computeIndices (keepArrays : bool) (s : Sigma) : Sigma :=
emit (omap (λ p : string * bool,
              if negb keepArrays && p.2 then Some (ComputeIndices p.1) else None)
        (edgePrograms s)) s.

Definition processEdgesPart (keepArrays : bool) (s : Sigma) : outcome unit Sigma :=
let '(perPrograms, edgeZExtent, s) := resolveEdges (edges (graph s)) ([], (None, None)) s in
bind (allocateEdgePrograms keepArrays (for_in perPrograms) s) (λ _ s,
  let perPrograms := reset perPrograms in
  let edges :=
    if zIndex (settings s) && z_differ edgeZExtent
    then zIndexOrdering edgeZExtent
           (λ edge, get (default ∅ (edgeDataCache s !! edge)) "zIndex") (edges (graph s))
    else edges (graph s) in
  bind (processEdges edges 0 perPrograms s) (λ _ s,
    Done tt (computeIndices keepArrays s))).

(** The statements of [process] before its first loop: the quadtree and the
  label grid are cleared, the highlighted set is emptied, the extent and the
  normalisation function are recomputed. *)
Definition prepared (s : Sigma) : Sigma :=
let s := emit [QuadtreeClear; LabelGridResizeAndClear] s in
let s := set_highlighted [] s in
let ext := graphExtent (graph s) in
set_extents ext (default ext (customBBox s)) s.

(** From the allocation of the node programs to [labelGrid.organize()]. *)
Definition processNodesPart (keepArrays : bool) (acc : counter * ZExtent) (s : Sigma)
  : outcome unit Sigma :=
let '(perPrograms, nodeZExtent) := acc in
bind (allocateNodePrograms keepArrays (for_in perPrograms) s) (λ _ s,
  let perPrograms := reset perPrograms in
  let nodes :=
    if zIndex (settings s) && z_differ nodeZExtent
    then zIndexOrdering nodeZExtent
           (λ node, get (default ∅ (nodeDataCache s !! node)) "zIndex") (nodes (graph s))
    else nodes (graph s) in
  bind (processNodes nodes 0 perPrograms s) (λ _ s,
    Done tt (emit [LabelGridOrganize] s))).

Definition process (keepArrays : bool) (s : Sigma) : outcome unit Sigma :=
let s := prepared s in
bind (resolveNodes (nodes (graph s)) ([], (None, None)) s) (λ acc s,
  bind (processNodesPart keepArrays acc s) (λ _ s,
    processEdgesPart keepArrays s)).

(** The vocabulary of the statements about [process]. *)

(** The attribute set has no [x] or no [y]. *)
Definition lacks_position (data : obj) : Prop := data !! "x" = None ∨ data !! "y" = None.

#[global] Instance lacks_position_dec data : Decision (lacks_position data).
Proof. unfold lacks_position. apply _. Defined.





End WithCollaborators.




End Process.

(** ** The refresh scheduler *)

Module Scheduler.

(** The two closures handed to [requestFrame]. *)
Inductive Callback : Type :=
| RefreshCallback        (* () => { this._refresh(); this.renderFrame = null; } *)
| HighlightCallback.     (* the closure of scheduleHighlightedNodesRender *)

#[global] Instance Callback_eq_dec : EqDecision Callback.
Proof. solve_decision. Defined.

(** Calls and emitted events, in the order they happen. *)
Inductive Call : Type :=
| CallProcess (keepArrays : bool)
| CallRender
| CallRenderHighlightedNodes
| CallRenderEdgeLabels
| CallEmit (event node : string).

#[global] Instance Call_eq_dec : EqDecision Call.
Proof. solve_decision. Defined.

(** What the mouse-move listener learns from the quadtree and the display
  data: the node it would hover, whether that node is hidden, and whether
  the mouse is still on the node hovered so far. *)
Record Hit : Type := {
  nodeToHover : option string;
  nodeToHoverHidden : bool;
  mouseIsOnHovered : bool;
}.

Section WithWorld.
(** Everything [process] and [render] work on besides the scheduling fields:
  graph, caches, canvases. *)
Context {World : Type}.
(** The body of [process(keepArrays)]. *)
Variable process_world : bool → World → outcome unit World.
(** [render] after its first statement: resize, clear, draw. *)
Variable render_world : World → outcome unit World.
(** [renderHighlightedNodes(); renderEdgeLabels();]. *)
Variable overlay_world : World → World.

Record Sigma : Type := {
  renderFrame : option positive;
  renderHighlightedNodesFrame : option positive;
  needToProcess : bool;
  needToSoftProcess : bool;
  hoveredNode : option string;
  frames : list (positive * Callback);   (* callbacks waiting for the next frame *)
  nextFrame : positive;                  (* the next identifier requestFrame returns *)
  calls : list Call;
  world : World;
}.

Definition set_renderFrame (t : option positive) (s : Sigma) : Sigma :=
{| renderFrame := t; renderHighlightedNodesFrame := renderHighlightedNodesFrame s;
   needToProcess := needToProcess s; needToSoftProcess := needToSoftProcess s;
   hoveredNode := hoveredNode s; frames := frames s; nextFrame := nextFrame s;
   calls := calls s; world := world s |}.

Definition set_renderHighlightedNodesFrame (t : option positive) (s : Sigma) : Sigma :=
{| renderFrame := renderFrame s; renderHighlightedNodesFrame := t;
   needToProcess := needToProcess s; needToSoftProcess := needToSoftProcess s;
   hoveredNode := hoveredNode s; frames := frames s; nextFrame := nextFrame s;
   calls := calls s; world := world s |}.

Definition set_needToProcess (b : bool) (s : Sigma) : Sigma :=
{| renderFrame := renderFrame s; renderHighlightedNodesFrame := renderHighlightedNodesFrame s;
   needToProcess := b; needToSoftProcess := needToSoftProcess s;
   hoveredNode := hoveredNode s; frames := frames s; nextFrame := nextFrame s;
   calls := calls s; world := world s |}.

Definition set_needToSoftProcess (b : bool) (s : Sigma) : Sigma :=
{| renderFrame := renderFrame s; renderHighlightedNodesFrame := renderHighlightedNodesFrame s;
   needToProcess := needToProcess s; needToSoftProcess := b;
   hoveredNode := hoveredNode s; frames := frames s; nextFrame := nextFrame s;
   calls := calls s; world := world s |}.

Definition set_hoveredNode (n : option string) (s : Sigma) : Sigma :=
{| renderFrame := renderFrame s; renderHighlightedNodesFrame := renderHighlightedNodesFrame s;
   needToProcess := needToProcess s; needToSoftProcess := needToSoftProcess s;
   hoveredNode := n; frames := frames s; nextFrame := nextFrame s;
   calls := calls s; world := world s |}.

Definition set_frames (q : list (positive * Callback)) (n : positive) (s : Sigma) : Sigma :=
{| renderFrame := renderFrame s; renderHighlightedNodesFrame := renderHighlightedNodesFrame s;
   needToProcess := needToProcess s; needToSoftProcess := needToSoftProcess s;
   hoveredNode := hoveredNode s; frames := q; nextFrame := n;
   calls := calls s; world := world s |}.

Definition record (c : list Call) (s : Sigma) : Sigma :=
{| renderFrame := renderFrame s; renderHighlightedNodesFrame := renderHighlightedNodesFrame s;
   needToProcess := needToProcess s; needToSoftProcess := needToSoftProcess s;
   hoveredNode := hoveredNode s; frames := frames s; nextFrame := nextFrame s;
   calls := calls s ++ c; world := world s |}.

Definition set_world (w : World) (s : Sigma) : Sigma :=
{| renderFrame := renderFrame s; renderHighlightedNodesFrame := renderHighlightedNodesFrame s;
   needToProcess := needToProcess s; needToSoftProcess := needToSoftProcess s;
   hoveredNode := hoveredNode s; frames := frames s; nextFrame := nextFrame s;
   calls := calls s; world := w |}.

(** Modelled from the spec: [requestFrame] of [./utils], which is not among
  the sources.  It registers the callback for the next display-refresh
  opportunity and returns its token, a fresh non-zero identifier. *)
Definition requestFrame (cb : Callback) (s : Sigma) : positive * Sigma :=
(nextFrame s, set_frames (frames s ++ [(nextFrame s, cb)]) (Pos.succ (nextFrame s)) s).

(** Modelled from the spec: [cancelFrame] of [./utils]; the callback
  registered under the token will not fire. *)
Definition cancelFrame (id : positive) (s : Sigma) : Sigma :=
set_frames (filter (λ p, p.1 ≠ id) (frames s)) (nextFrame s) s.

Definition lift_world (f : World → outcome unit World) (s : Sigma) : outcome unit Sigma :=
match f (world s) with
| Done _ w => Done tt (set_world w s)
| Threw e w => Threw e (set_world w s)
end.

Definition process (keepArrays : bool) (s : Sigma) : outcome unit Sigma :=
lift_world (process_world keepArrays) (record [CallProcess keepArrays] s).

Definition render (s : Sigma) : outcome unit Sigma :=
let s := match renderFrame s with
         | Some id =>
             set_needToSoftProcess false
               (set_needToProcess false (set_renderFrame None (cancelFrame id s)))
         | None => s
         end in
lift_world render_world (record [CallRender] s).

Definition _refresh (s : Sigma) : outcome unit Sigma :=
bind (if needToProcess s then process false s
      else if needToSoftProcess s then process true s
      else Done tt s)
  (λ _ s, render (set_needToSoftProcess false (set_needToProcess false s))).

Definition _scheduleRefresh (s : Sigma) : Sigma :=
match renderFrame s with
| None => let '(id, s) := requestFrame RefreshCallback s in set_renderFrame (Some id) s
| Some _ => s
end.

Definition refresh (s : Sigma) : outcome unit Sigma :=
_refresh (set_needToProcess true s).

Definition scheduleRefresh (s : Sigma) : Sigma :=
_scheduleRefresh (set_needToProcess true s).

Definition scheduleHighlightedNodesRender (s : Sigma) : Sigma :=
if bool_decide (is_Some (renderHighlightedNodesFrame s)) || bool_decide (is_Some (renderFrame s))
then s
else let '(id, s) := requestFrame HighlightCallback s in
     set_renderHighlightedNodesFrame (Some id) s.

(** The listeners bound to the camera, the window and the graph. *)
Definition cameraUpdated (s : Sigma) : Sigma := _scheduleRefresh s.
Definition handleResize (s : Sigma) : Sigma := _scheduleRefresh (set_needToSoftProcess true s).
Definition graphUpdate (s : Sigma) : Sigma := _scheduleRefresh (set_needToProcess true s).
Definition softGraphUpdate (s : Sigma) : Sigma := _scheduleRefresh (set_needToSoftProcess true s).

(** A node key used as a condition: [null] and the empty string are falsy. *)
Definition key_truthy (k : option string) : bool :=
match k with
| Some n => negb (bool_decide (n = ""))
| None => false
end.

(** The mouse-move listener, after its search for the node to hover. *)
Definition handleMove (h : Hit) (s : Sigma) : Sigma :=
if key_truthy (nodeToHover h)
   && negb (bool_decide (hoveredNode s = nodeToHover h))
   && negb (nodeToHoverHidden h)
then
  let s := if key_truthy (hoveredNode s)
           then record [CallEmit "leaveNode" (default "" (hoveredNode s))] s else s in
  let s := set_hoveredNode (nodeToHover h) s in
  let s := record [CallEmit "enterNode" (default "" (nodeToHover h))] s in
  scheduleHighlightedNodesRender s
else if key_truthy (hoveredNode s) && negb (mouseIsOnHovered h)
then
  let node := default "" (hoveredNode s) in
  let s := set_hoveredNode None s in
  let s := record [CallEmit "leaveNode" node] s in
  scheduleHighlightedNodesRender s
else s.

(** The bodies of the two frame callbacks. *)
Definition run_callback (cb : Callback) (s : Sigma) : outcome unit Sigma :=
match cb with
| RefreshCallback => bind (_refresh s) (λ _ s, Done tt (set_renderFrame None s))
| HighlightCallback =>
    let s := set_renderHighlightedNodesFrame None s in
    let s := record [CallRenderHighlightedNodes; CallRenderEdgeLabels] s in
    Done tt (set_world (overlay_world (world s)) s)
end.

(** Modelled from the spec: one display-refresh opportunity.  The callbacks
  registered before it run in registration order; one canceled in the
  meantime does not run; an exception ends the callback that raised it and
  is reported, and the others still run. *)
Fixpoint run_frame (batch : list (positive * Callback)) (s : Sigma) : list error * Sigma :=
match batch with
| [] => ([], s)
| (id, cb) :: rest =>
    if bool_decide ((id, cb) ∈ frames s)
    then match run_callback cb (cancelFrame id s) with
         | Done _ s' => run_frame rest s'
         | Threw e s' => let '(es, s'') := run_frame rest s' in (e :: es, s'')
         end
    else run_frame rest s
end.

Definition frame (s : Sigma) : list error * Sigma := run_frame (frames s) s.

(** What can happen to a renderer between its construction and its
  teardown. *)
Inductive step : Sigma → Sigma → Prop :=
| step_scheduleRefresh s : step s (scheduleRefresh s)
| step_refresh s : step s (final (refresh s))
| step_cameraUpdated s : step s (cameraUpdated s)
| step_handleResize s : step s (handleResize s)
| step_graphUpdate s : step s (graphUpdate s)
| step_softGraphUpdate s : step s (softGraphUpdate s)
| step_handleMove h s : step s (handleMove h s)
| step_world f s : step s (set_world (f (world s)) s)
| step_frame s : step s (frame s).2.

(** The renderer as its constructor leaves it: no token, no flag. *)
Definition idle (w : World) : Sigma :=
{| renderFrame := None; renderHighlightedNodesFrame := None;
   needToProcess := false; needToSoftProcess := false;
   hoveredNode := None; frames := []; nextFrame := 1%positive;
   calls := []; world := w |}.

Inductive reachable (w : World) : Sigma → Prop :=
| reachable_idle : reachable w (idle w)
| reachable_step s s' : reachable w s → step s s' → reachable w s'.

(** The tokens of the callbacks of one kind that wait for the next frame. *)
Definition pending (cb : Callback) (s : Sigma) : list positive :=
(filter (λ p, p.2 = cb) (frames s)).*1.

(** The scheduling fields agree: tokens are handed out once, and a waiting
  callback is the one its token field names. *)
Definition consistent (s : Sigma) : Prop :=
NoDup (frames s).*1
∧ (∀ id cb, (id, cb) ∈ frames s → (id < nextFrame s)%positive)
∧ (∀ id, (id, RefreshCallback) ∈ frames s → renderFrame s = Some id)
∧ (∀ id, (id, HighlightCallback) ∈ frames s → renderHighlightedNodesFrame s = Some id).

(** Two states with the same queue and the same tokens: what
  [process_world] and [render_world] cannot touch. *)
Definition same_schedule (s s' : Sigma) : Prop :=
frames s' = frames s ∧ nextFrame s' = nextFrame s
∧ renderFrame s' = renderFrame s
∧ renderHighlightedNodesFrame s' = renderHighlightedNodesFrame s.

(** The rebuild and render calls among the recorded calls. *)
Definition is_pass (c : Call) : bool :=
match c with
| CallProcess _ | CallRender => true
| _ => false
end.

(** [n] calls of a method in a row. *)
Fixpoint repeatedly (n : nat) (f : Sigma → Sigma) (s : Sigma) : Sigma :=
match n with
| O => s
| S n' => repeatedly n' f (f s)
end.

End WithWorld.

End Scheduler.

(** ** Coordinate systems and the camera *)

Module Transform.
Local Open Scope Qc_scope.

Record Coordinates : Type := { x : Qc; y : Qc }.
Record Dimensions : Type := { width : Qc; height : Qc }.
(** [CameraState]: the pan [(x, y)], the zoom ratio and the angle. *)
Record CameraState : Type := { cam_x : Qc; cam_y : Qc; ratio : Qc; angle : Qc }.

(** A 3 x 3 matrix, [m_ij] in row [i] and column [j]. *)
Record Matrix : Type := {
  m00 : Qc; m01 : Qc; m02 : Qc;
  m10 : Qc; m11 : Qc; m12 : Qc;
  m20 : Qc; m21 : Qc; m22 : Qc;
}.

Definition Vec3 : Type := Qc * Qc * Qc.

(** Modelled from the spec: [multiplyVec] of [./utils/matrices], which
  applies a matrix to a point given as a vector [[x, y, 1]]. *)
Definition multiplyVec (m : Matrix) (v : Vec3) : Vec3 :=
let '(a, b, c) := v in
(m00 m * a + m01 m * b + m02 m * c,
 m10 m * a + m11 m * b + m12 m * c,
 m20 m * a + m21 m * b + m22 m * c).

(** The optional second argument of the two coordinate methods. *)
Record Override : Type := {
  o_cameraState : option CameraState;
  o_matrix : option Matrix;
  o_viewportDimensions : option Dimensions;
  o_graphDimensions : option Dimensions;
  o_padding : option Qc;
}.

(** The default value [{}] of that argument. *)
Definition no_override : Override :=
{| o_cameraState := None; o_matrix := None; o_viewportDimensions := None;
   o_graphDimensions := None; o_padding := None |}.

(** The override [{ matrix: m }]. *)
Definition withMatrix (m : Matrix) : Override :=
{| o_cameraState := None; o_matrix := Some m; o_viewportDimensions := None;
   o_graphDimensions := None; o_padding := None |}.

(** The fields of [Sigma] the coordinate methods read. *)
Record Sigma : Type := {
  camera : CameraState;          (* this.camera.getState() *)
  matrix : Matrix;
  invMatrix : Matrix;
  sigma_width : Qc;
  sigma_height : Qc;
  customBBox : option BBox;
  nodeExtent : BBox;
  stagePadding : option Qc;      (* this.getSetting("stagePadding") *)
}.

(** [a || b] on numbers: zero is falsy. *)
Definition or_num (a b : Qc) : Qc := if bool_decide (a = 0) then b else a.

Definition getDimensions (s : Sigma) : Dimensions :=
{| width := sigma_width s; height := sigma_height s |}.

Definition getGraphDimensions (s : Sigma) : Dimensions :=
let extent := default (nodeExtent s) (customBBox s) in
{| width := or_num ((bbox_x extent).2 - (bbox_x extent).1) 1;
   height := or_num ((bbox_y extent).2 - (bbox_y extent).1) 1 |}.

(** [override.padding || this.getSetting("stagePadding") || 0]. *)
Definition padding_of (o : Override) (s : Sigma) : Qc :=
or_num (or_num (default 0 (o_padding o)) (default 0 (stagePadding s))) 0.

Section WithMatrixFromCamera.
(** [matrixFromCamera(state, viewportDimensions, graphDimensions, padding,
  inverse)] of [./utils], which is not among the sources. *)
Variable matrixFromCamera : CameraState → Dimensions → Dimensions → Qc → bool → Matrix.

Definition recomputed (inverse : bool) (o : Override) (s : Sigma) : Matrix :=
matrixFromCamera
  (default (camera s) (o_cameraState o))
  (default (getDimensions s) (o_viewportDimensions o))
  (default (getGraphDimensions s) (o_graphDimensions o))
  (padding_of o s)
  inverse.

Definition framedGraphToViewport (coordinates : Coordinates) (override : Override)
  (s : Sigma) : Coordinates :=
let recomputeMatrix :=
  bool_decide (is_Some (o_cameraState override))
  || bool_decide (is_Some (o_viewportDimensions override))
  || bool_decide (is_Some (o_graphDimensions override)) in
let matrix :=
  match o_matrix override with
  | Some m => m
  | None => if recomputeMatrix then recomputed false override s else matrix s
  end in
let framedGraphVec := (x coordinates, y coordinates, 1) in
let viewportVec := multiplyVec matrix framedGraphVec in
{| x := (1 + viewportVec.1.1) * sigma_width s / two;
   y := (1 - viewportVec.1.2) * sigma_height s / two |}.

Definition viewportToFramedGraph (coordinates : Coordinates) (override : Override)
  (s : Sigma) : Coordinates :=
let recomputeMatrix :=
  bool_decide (is_Some (o_cameraState override))
  || bool_decide (is_Some (o_viewportDimensions override))
  || negb (bool_decide (is_Some (o_graphDimensions override))) in
let invMatrix :=
  match o_matrix override with
  | Some m => m
  | None => if recomputeMatrix then recomputed true override s else invMatrix s
  end in
let viewportVec :=
  (x coordinates / sigma_width s * two - 1, 1 - y coordinates / sigma_height s * two, 1) in
let framedGraphVec := multiplyVec invMatrix viewportVec in
{| x := framedGraphVec.1.1; y := framedGraphVec.1.2 |}.

End WithMatrixFromCamera.

(** Modelled from the spec: an instance of [matrixFromCamera], which is
  not among the sources.  The spec composes the normalisation of the graph
  extent, the rotation by [angle], the translation by [(x, y)] and the scale
  by [1/ratio], and gives for the inverse variant the same composition solved
  in reverse; it gives neither the normalisation constants nor the rotation
  entries, so this instance keeps the translation and the scale and stands
  for a camera that is not rotated over a graph already in the unit frame. *)
Definition unrotatedMatrixFromCamera (state : CameraState) (viewport graph : Dimensions)
  (padding : Qc) (inverse : bool) : Matrix :=
if inverse
then {| m00 := ratio state; m01 := 0; m02 := cam_x state;
        m10 := 0; m11 := ratio state; m12 := cam_y state;
        m20 := 0; m21 := 0; m22 := 1 |}
else {| m00 := 1 / ratio state; m01 := 0; m02 := - cam_x state / ratio state;
        m10 := 0; m11 := 1 / ratio state; m12 := - cam_y state / ratio state;
        m20 := 0; m21 := 0; m22 := 1 |}.

End Transform.

(** ** The display-data getters, over a store of objects *)

Module Store.

(** The caches hold references to objects; [store] gives the own properties
  of each allocated object.  A cache is a plain object created as [{}]: its
  entries are its own properties, and under [__proto__] the entry, if any,
  is the display data that the assignment [cache["__proto__"] = data] of
  [process] installed as its prototype. *)
Record Sigma : Type := {
  store : gmap positive obj;
  nodeDataCache : gmap string positive;
  edgeDataCache : gmap string positive;
}.

(** What [cache[key]] evaluates to. *)
Inductive Found : Type :=
| FoundObject (r : positive)   (* an entry of the cache *)
| FoundValue (v : value)       (* a property of the display data installed as prototype *)
| FoundMember                  (* a member of [Object.prototype]: a function, or under
                                  [__proto__] the prototype object itself *)
| FoundNothing.                (* [undefined] *)

(** [cache[key]]: the own property, else what the prototype chain gives:
  the display data installed as prototype, if any, then
  [Object.prototype]. *)
Definition lookup_cache (objects : gmap positive obj) (cache : gmap string positive)
  (key : string) : Found :=
match cache !! key with
| Some r => FoundObject r
| None =>
    match (cache !! "__proto__") ≫= (λ p : positive,
            (objects !! p) ≫= (λ data : obj, data !! key)) with
    | Some v => FoundValue v
    | None =>
        if bool_decide (key ∈ object_prototype_members) then FoundMember else FoundNothing
    end
end.

(** ToBoolean of what was found: an object or a function is truthy. *)
Definition found_truthy (f : Found) : bool :=
match f with
| FoundObject _ | FoundMember => true
| FoundValue v => truthy v
| FoundNothing => false
end.

(** The property name of an index. *)
Definition index_key (i : nat) : string := NilEmpty.string_of_uint (Nat.to_uint i).

(** The own enumerable properties of a string: one per character, under its
  index. *)
Fixpoint characters (i : nat) (s : string) : obj :=
match s with
| EmptyString => ∅
| String a s' => <[index_key i := VStr (String a EmptyString)]> (characters (S i) s')
end.

(** The own enumerable properties that [Object.assign({}, source)] copies:
  those of a display data object; the characters of a string; none for a
  number, a boolean, a built-in function or [Object.prototype]. *)
Definition own_enumerable (objects : gmap positive obj) (source : Found) : obj :=
match source with
| FoundObject r => default ∅ (objects !! r)
| FoundValue (VStr s) => characters 0 s
| _ => ∅
end.

(** A new object with the properties [o]. *)
Definition alloc (o : obj) (s : Sigma) : positive * Sigma :=
let r := fresh (dom (store s)) in
(r, {| store := <[r := o]> (store s);
       nodeDataCache := nodeDataCache s; edgeDataCache := edgeDataCache s |}).

(** [node ? Object.assign({}, node) : undefined], the result [None] standing
  for [undefined]. *)
Definition copy_if_truthy (found : Found) (s : Sigma) : option positive * Sigma :=
if found_truthy found
then let '(r, s') := alloc (own_enumerable (store s) found) s in (Some r, s')
else (None, s).

Definition getNodeDisplayData (key : string) (s : Sigma) : option positive * Sigma :=
let node := lookup_cache (store s) (nodeDataCache s) key in
copy_if_truthy node s.

Definition getEdgeDisplayData (key : string) (s : Sigma) : option positive * Sigma :=
let edge := lookup_cache (store s) (edgeDataCache s) key in
copy_if_truthy edge s.

(** Any mutation of the object behind a reference: its properties become
  [o]. *)
Definition mutate (r : positive) (o : obj) (s : Sigma) : Sigma :=
{| store := <[r := o]> (store s);
   nodeDataCache := nodeDataCache s; edgeDataCache := edgeDataCache s |}.

(** What the renderer sees of a cached node or edge. *)
Definition cachedNode (key : string) (s : Sigma) : option obj :=
nodeDataCache s !! key ≫= λ r, store s !! r.

Definition cachedEdge (key : string) (s : Sigma) : option obj :=
edgeDataCache s !! key ≫= λ r, store s !! r.

(** Every cache entry refers to an allocated object. *)
Definition well_formed (s : Sigma) : Prop :=
(∀ key r, nodeDataCache s !! key = Some r → is_Some (store s !! r))
∧ (∀ key r, edgeDataCache s !! key = Some r → is_Some (store s !! r)).

End Store.

(** ** Concrete inputs used by the examples *)

Module Samples.
Import Defaults.

(** A stand-in for Number::toString where an example needs one; no example
  stringifies a number. *)
Definition noNumberToString : Qc → string := λ _, "".

Definition sampleSettings : Settings :=
{| defaultNodeColor := "#999"; defaultNodeType := "circle";
   defaultEdgeColor := "#ccc"; defaultEdgeType := "line";
   zIndex := false; nodeReducer := None; edgeReducer := None |}.


(** [{ x: 1, y: 2, label: "" }]. *)
Definition emptyLabelNode : obj :=
<["x" := num 1]> (<["y" := num 2]> (<["label" := VStr ""]> ∅)).

(** Stand-ins for the collaborators of [process] in the examples: a unit
  extent, a normalisation and an ordering that change nothing. *)
Definition unitBox : BBox :=
{| bbox_x := (Q2Qc 0, Q2Qc 1); bbox_y := (Q2Qc 0, Q2Qc 1) |}.
Definition unitExtent : Process.Graph → BBox := λ _, unitBox.
Definition keepPosition : BBox → obj → obj := λ _ data, data.
Definition keepOrder : Process.ZExtent → (string → value) → list string → list string :=
λ _ _ l, l.



(** Two nodes, [a] of the default type and [b] of type [__proto__], and no
  edge. *)
Definition typeNamedProto : Process.Graph :=
{| Process.nodes := ["a"; "b"];
   Process.getNodeAttributes := λ node,
     if decide (node = "a")
     then <["x" := num 0]> (<["y" := num 0]> ∅)
     else <["x" := num 1]> (<["y" := num 1]> (<["type" := VStr "__proto__"]> ∅));
   Process.edges := [];
   Process.getEdgeAttributes := λ _, ∅;
   Process.extremities := λ _, ("a", "b") |}.


(** A renderer with the programs [circle] for nodes and [line] for edges,
  before its first [process]. *)
Definition freshSigma (g : Process.Graph) : Process.Sigma :=
{| Process.settings := sampleSettings; Process.graph := g;
   Process.nodePrograms := ["circle"]; Process.edgePrograms := [("line", true)];
   Process.customBBox := None; Process.nodeExtent := unitBox;
   Process.normalizationBBox := unitBox;
   Process.nodeDataCache := ∅; Process.edgeDataCache := ∅;
   Process.nodeKeyToIndex := ∅; Process.highlightedNodes := [];
   Process.log := [] |}.

(** Two nodes of the default type, and no edge. *)
Definition twoCircles : Process.Graph :=
{| Process.nodes := ["a"; "b"];
   Process.getNodeAttributes := λ node,
     if decide (node = "a")
     then <["x" := num 0]> (<["y" := num 0]> ∅)
     else <["x" := num 1]> (<["y" := num 1]> ∅);
   Process.edges := [];
   Process.getEdgeAttributes := λ _, ∅;
   Process.extremities := λ _, ("a", "b") |}.

(** The world of the scheduler in the examples: the state [process] works
  on, with a drawing and an overlay that leave it as it is. *)
Definition sampleProcess : bool → Process.Sigma → outcome unit Process.Sigma :=
Process.process noNumberToString unitExtent keepPosition keepOrder.
Definition sampleRender : Process.Sigma → outcome unit Process.Sigma := λ w, Done tt w.
Definition sampleOverlay : Process.Sigma → Process.Sigma := λ w, w.

(** The mouse moves onto node [a], then onto node [b]. *)
Definition ontoA : Scheduler.Hit :=
{| Scheduler.nodeToHover := Some "a"; Scheduler.nodeToHoverHidden := false;
   Scheduler.mouseIsOnHovered := false |}.
Definition ontoB : Scheduler.Hit :=
{| Scheduler.nodeToHover := Some "b"; Scheduler.nodeToHoverHidden := false;
   Scheduler.mouseIsOnHovered := false |}.

(** A renderer on [twoCircles] after its construction. *)
Definition idleRenderer : @Scheduler.Sigma Process.Sigma :=
Scheduler.idle (freshSigma twoCircles).

(** The same renderer once the mouse is on [a]: an overlay callback waits. *)
Definition hoveringA : @Scheduler.Sigma Process.Sigma :=
Scheduler.handleMove ontoA idleRenderer.

(** A renderer of 2 by 2 pixels that rendered with the camera at rest,
  [{ x: 0, y: 0, ratio: 1, angle: 0 }], and whose camera has since moved to
  [x = 1]; the next frame has not fired yet. *)
Definition restCamera : Transform.CameraState :=
{| Transform.cam_x := Q2Qc 0; Transform.cam_y := Q2Qc 0;
   Transform.ratio := Q2Qc 1; Transform.angle := Q2Qc 0 |}.
Definition movedCamera : Transform.CameraState :=
{| Transform.cam_x := Q2Qc 1; Transform.cam_y := Q2Qc 0;
   Transform.ratio := Q2Qc 1; Transform.angle := Q2Qc 0 |}.
Definition pixels2 : Transform.Dimensions :=
{| Transform.width := two; Transform.height := two |}.
Definition unitDimensions : Transform.Dimensions :=
{| Transform.width := Q2Qc 1; Transform.height := Q2Qc 1 |}.
Definition movedSinceRender : Transform.Sigma :=
{| Transform.camera := movedCamera;
   Transform.matrix :=
     Transform.unrotatedMatrixFromCamera restCamera pixels2 unitDimensions (Q2Qc 0) false;
   Transform.invMatrix :=
     Transform.unrotatedMatrixFromCamera restCamera pixels2 unitDimensions (Q2Qc 0) true;
   Transform.sigma_width := two; Transform.sigma_height := two;
   Transform.customBBox := None; Transform.nodeExtent := unitBox;
   Transform.stagePadding := None |}.
Definition origin : Transform.Coordinates :=
{| Transform.x := Q2Qc 0; Transform.y := Q2Qc 0 |}.
(** A store with one node object, cached under the key [a]. *)
Definition oneCachedNode : Store.Sigma :=
{| Store.store := {[ 1%positive := emptyLabelNode ]};
   Store.nodeDataCache := {[ "a" := 1%positive ]};
   Store.edgeDataCache := ∅ |}.

End Samples.

(** * Properties *)

(** ** Objects *)

Module JSFacts.






End JSFacts.

(** ** Defaults of the node display data *)

Module DefaultsFacts.
Import Defaults JSFacts.

Section WithToString.
Variable numberToString : Qc → string.










End WithToString.



End DefaultsFacts.

(** ** Enumeration order *)

Module KeysFacts.






End KeysFacts.

(** ** [process]: position errors and program errors *)

Module ProcessFacts.
Import Defaults Process JSFacts DefaultsFacts KeysFacts.








Section WithCollaborators.
Variable numberToString : Qc → string.
Variable graphExtent : Graph → BBox.
Variable applyTo : BBox → obj → obj.
Variable zIndexOrdering : ZExtent → (string → value) → list string → list string.





























Lemma prepared_fields s :
  nodeDataCache (prepared graphExtent s) = nodeDataCache s
  ∧ edgeDataCache (prepared graphExtent s) = edgeDataCache s
  ∧ log (prepared graphExtent s) = log s ++ [QuadtreeClear; LabelGridResizeAndClear].
Proof. done. Qed.



End WithCollaborators.




(** A node whose type is [__proto__] is outside what C6 (amended) states:
  the counting statement creates no own property for that type, so the
  allocation loop does not visit it and raises nothing; the buffer of
  [circle] is allocated, the first node is processed, the second node is
  added to the quadtree, and the call of [process] on its program raises a
  [TypeError]. *)
Lemma process_type_named_proto :
  thrown (process Samples.noNumberToString Samples.unitExtent Samples.keepPosition
            Samples.keepOrder false (Samples.freshSigma Samples.typeNamedProto))
  = Some TypeError
  ∧ ∃ a b,
      log (final (process Samples.noNumberToString Samples.unitExtent Samples.keepPosition
                    Samples.keepOrder false (Samples.freshSigma Samples.typeNamedProto)))
      = [QuadtreeClear; LabelGridResizeAndClear; NodeAllocate "circle" (Count 1);
         QuadtreeAdd "a" a; NodeProcess "circle" a (VBool false) (Count 0);
         QuadtreeAdd "b" b].
Proof. split; [vm_compute; reflexivity|]. eexists _, _. vm_compute. reflexivity. Qed.

End ProcessFacts.

(** ** The refresh scheduler *)

Module SchedulerFacts.
Import Scheduler.

(** Filters of a queue given by its elements, on tokens known to be equal
  or different. *)
Ltac filter_tokens :=
  repeat first
    [ rewrite filter_nil
    | rewrite filter_cons
    | rewrite decide_True by done
    | rewrite decide_False by (simpl; intros ?; done) ].

Section WithWorld.
Context {World : Type}.
Variable process_world : bool → World → outcome unit World.
Variable render_world : World → outcome unit World.
Variable overlay_world : World → World.

Abbreviation SigmaW := (@Sigma World).

(** C5: when [_refresh] runs and the pass it starts and the drawing return,
  the full pass has run if [needToProcess] was set, otherwise the soft pass
  ([keepArrays = true]) if [needToSoftProcess] was set, otherwise none; then
  [render] has run once; and both flags are cleared at the end, whatever they
  were. *)
Theorem _refresh_runs (s : SigmaW) (w1 w2 : World) :
  match needToProcess s, needToSoftProcess s with
  | true, _ => process_world false (world s) = Done tt w1
  | false, true => process_world true (world s) = Done tt w1
  | false, false => w1 = world s
  end →
  render_world w1 = Done tt w2 →
  ∃ s', _refresh process_world render_world s = Done tt s'
    ∧ calls s' = calls s
                 ++ (if needToProcess s then [CallProcess false]
                     else if needToSoftProcess s then [CallProcess true]
                     else [])
                 ++ [CallRender]
    ∧ needToProcess s' = false
    ∧ needToSoftProcess s' = false
    ∧ world s' = w2.
Proof.
  intros Hp Hr. unfold _refresh, process, render, lift_world.
  destruct (needToProcess s) eqn:Np; [|destruct (needToSoftProcess s) eqn:Ns].
  - simpl. rewrite Hp. simpl.
    destruct (renderFrame s); simpl; rewrite Hr; eexists; split; try reflexivity; simpl;
      by rewrite <- app_assoc.
  - simpl. rewrite Hp. simpl.
    destruct (renderFrame s); simpl; rewrite Hr; eexists; split; try reflexivity; simpl;
      by rewrite <- app_assoc.
  - subst w1. simpl.
    destruct (renderFrame s); simpl; rewrite Hr; eexists; split; try reflexivity; simpl; done.
Qed.

Lemma elem_of_pending cb (s : SigmaW) id : id ∈ pending cb s ↔ (id, cb) ∈ frames s.
Proof.
  unfold pending. rewrite list_elem_of_fmap. split.
  - intros ([id' cb'] & -> & H). apply list_elem_of_filter in H as [E H].
    simpl in E. by subst.
  - intros H. exists (id, cb). split; [done|]. by apply list_elem_of_filter.
Qed.

Lemma NoDup_all_equal {A} (l : list A) :
  NoDup l → (∀ x y, x ∈ l → y ∈ l → x = y) → (List.length l ≤ 1)%nat.
Proof.
  destruct l as [|a [|b l]]; simpl; intros N H; [lia | lia |].
  exfalso. apply NoDup_cons in N as [N _]. apply N.
  rewrite (H a b); [by left | by left | by right; left].
Qed.

(** In a consistent state at most one callback of each kind waits. *)
Lemma consistent_pending cb (s : SigmaW) : consistent s → (List.length (pending cb s) ≤ 1)%nat.
Proof.
  intros (N & _ & Hr & Hh). apply NoDup_all_equal.
  - unfold pending. eapply NoDup_fmap_fst.
    + intros x y1 y2 H1 H2.
      apply list_elem_of_filter in H1 as [_ H1]. apply list_elem_of_filter in H2 as [_ H2].
      apply list_elem_of_lookup in H1 as [i1 H1]. apply list_elem_of_lookup in H2 as [i2 H2].
      assert (i1 = i2).
      { eapply NoDup_lookup; [exact N| |]; rewrite list_lookup_fmap.
        - by rewrite H1. - by rewrite H2. }
      subst. congruence.
    + apply NoDup_filter. eapply NoDup_fmap_1. exact N.
  - intros x y Hx Hy. apply elem_of_pending in Hx, Hy.
    destruct cb.
    + apply Hr in Hx, Hy. congruence.
    + apply Hh in Hx, Hy. congruence.
Qed.

Lemma consistent_idle (w : World) : consistent (idle w).
Proof.
  repeat split; simpl.
  - constructor.
  - intros id cb H. by apply elem_of_nil in H.
  - intros id H. by apply elem_of_nil in H.
  - intros id H. by apply elem_of_nil in H.
Qed.

(** Fields that only carry flags, the hovered node, calls or the world do
  not matter to consistency. *)
Lemma consistent_same (s s' : SigmaW) :
  frames s' = frames s → nextFrame s' = nextFrame s →
  renderFrame s' = renderFrame s →
  renderHighlightedNodesFrame s' = renderHighlightedNodesFrame s →
  consistent s → consistent s'.
Proof. unfold consistent. intros -> -> -> ->. done. Qed.

Lemma consistent_cancelFrame id (s : SigmaW) : consistent s → consistent (cancelFrame id s).
Proof.
  intros (N & Hb & Hr & Hh). unfold consistent, cancelFrame. simpl.
  split; [|split; [|split]].
  - apply NoDup_fmap_fst.
    + intros x y1 y2 H1 H2.
      apply list_elem_of_filter in H1 as [_ H1]. apply list_elem_of_filter in H2 as [_ H2].
      apply list_elem_of_lookup in H1 as [i1 H1]. apply list_elem_of_lookup in H2 as [i2 H2].
      assert (i1 = i2).
      { eapply NoDup_lookup; [exact N| |]; rewrite list_lookup_fmap.
        - by rewrite H1. - by rewrite H2. }
      subst. congruence.
    + apply NoDup_filter. eapply NoDup_fmap_1. exact N.
  - intros i cb H. apply list_elem_of_filter in H as [_ H]. by eapply Hb.
  - intros i H. apply list_elem_of_filter in H as [_ H]. by apply Hr.
  - intros i H. apply list_elem_of_filter in H as [_ H]. by apply Hh.
Qed.

(** Canceling the token of a kind leaves no callback of that kind. *)
Lemma cancelFrame_refresh id (s : SigmaW) i :
  consistent s → renderFrame s = Some id → (i, RefreshCallback) ∉ frames (cancelFrame id s).
Proof.
  intros (_ & _ & Hr & _) Ht H. unfold cancelFrame in H. simpl in H.
  apply list_elem_of_filter in H as [Hne H]. simpl in Hne.
  apply Hr in H. congruence.
Qed.

Lemma cancelFrame_highlight id (s : SigmaW) i :
  consistent s → renderHighlightedNodesFrame s = Some id →
  (i, HighlightCallback) ∉ frames (cancelFrame id s).
Proof.
  intros (_ & _ & _ & Hh) Ht H. unfold cancelFrame in H. simpl in H.
  apply list_elem_of_filter in H as [Hne H]. simpl in Hne.
  apply Hh in H. congruence.
Qed.

Lemma consistent_no_refresh (s : SigmaW) t :
  consistent s → (∀ i, (i, RefreshCallback) ∉ frames s) →
  consistent (set_renderFrame t s).
Proof.
  intros (N & Hb & Hr & Hh) Hno. repeat split; simpl; try done.
  intros i H. by apply Hno in H.
Qed.

Lemma consistent_no_highlight (s : SigmaW) t :
  consistent s → (∀ i, (i, HighlightCallback) ∉ frames s) →
  consistent (set_renderHighlightedNodesFrame t s).
Proof.
  intros (N & Hb & Hr & Hh) Hno. repeat split; simpl; try done.
  intros i H. by apply Hno in H.
Qed.

Lemma consistent__scheduleRefresh (s : SigmaW) : consistent s → consistent (_scheduleRefresh s).
Proof.
  intros C. unfold _scheduleRefresh. destruct (renderFrame s) eqn:Ht; [done|].
  destruct C as (N & Hb & Hr & Hh). simpl. repeat split; simpl.
  - rewrite fmap_app. simpl. apply NoDup_app. split; [done|]. split; [|apply NoDup_singleton].
    intros i Hi Hi'. apply list_elem_of_singleton in Hi'. subst.
    apply list_elem_of_fmap in Hi as ([i cb] & E & Hi). simpl in E. subst.
    apply Hb in Hi. lia.
  - intros i cb H. apply elem_of_app in H as [H|H].
    + apply Hb in H. lia.
    + apply list_elem_of_singleton in H. injection H as -> ->. lia.
  - intros i H. apply elem_of_app in H as [H|H].
    + apply Hr in H. congruence.
    + apply list_elem_of_singleton in H. by injection H as ->.
  - intros i H. apply elem_of_app in H as [H|H]; [by apply Hh|].
    apply list_elem_of_singleton in H. discriminate.
Qed.

Lemma consistent_scheduleHighlightedNodesRender (s : SigmaW) :
  consistent s → consistent (scheduleHighlightedNodesRender s).
Proof.
  intros C. unfold scheduleHighlightedNodesRender.
  destruct (renderHighlightedNodesFrame s) eqn:Ht; simpl; [done|].
  destruct (renderFrame s) eqn:Hf; simpl; [done|].
  destruct C as (N & Hb & Hr & Hh). repeat split; simpl.
  - rewrite fmap_app. simpl. apply NoDup_app. split; [done|]. split; [|apply NoDup_singleton].
    intros i Hi Hi'. apply list_elem_of_singleton in Hi'. subst.
    apply list_elem_of_fmap in Hi as ([i cb] & E & Hi). simpl in E. subst.
    apply Hb in Hi. lia.
  - intros i cb H. apply elem_of_app in H as [H|H].
    + apply Hb in H. lia.
    + apply list_elem_of_singleton in H. injection H as -> ->. lia.
  - intros i H. apply elem_of_app in H as [H|H]; [by apply Hr|].
    apply list_elem_of_singleton in H. discriminate.
  - intros i H. apply elem_of_app in H as [H|H].
    + apply Hh in H. congruence.
    + apply list_elem_of_singleton in H. by injection H as ->.
Qed.

Lemma lift_world_schedule f (s : SigmaW) : same_schedule s (final (lift_world f s)).
Proof. unfold lift_world. by destruct (f (world s)). Qed.

Lemma render_consistent (s : SigmaW) :
  consistent s →
  consistent (final (render render_world s))
  ∧ renderFrame (final (render render_world s)) = None
  ∧ (renderFrame s = None → frames (final (render render_world s)) = frames s)
  ∧ renderHighlightedNodesFrame (final (render render_world s))
    = renderHighlightedNodesFrame s
  ∧ ∀ x, x ∈ frames (final (render render_world s)) → x ∈ frames s.
Proof.
  intros C. unfold render.
  destruct (renderFrame s) as [id|] eqn:Ht.
  - set (s1 := record [CallRender] (set_needToSoftProcess false
                 (set_needToProcess false (set_renderFrame None (cancelFrame id s))))).
    destruct (lift_world_schedule render_world s1) as (Hf & Hn & Hr & Hh).
    set (s' := final (lift_world render_world s1)) in *.
    split; [|split; [done|split; [done|split; [done|]]]].
    + apply (consistent_same s1 s' Hf Hn Hr Hh).
      apply (consistent_same (set_renderFrame None (cancelFrame id s))); try done.
      apply consistent_no_refresh; [by apply consistent_cancelFrame|].
      intros i. by apply cancelFrame_refresh.
    + intros x. rewrite Hf. simpl. intros Hx.
      by apply list_elem_of_filter in Hx as [_ Hx].
  - set (s1 := record [CallRender] s).
    destruct (lift_world_schedule render_world s1) as (Hf & Hn & Hr & Hh).
    set (s' := final (lift_world render_world s1)) in *.
    split; [|split; [|split; [|split]]].
    + apply (consistent_same s1 s' Hf Hn Hr Hh).
      apply (consistent_same s); done.
    + by rewrite Hr.
    + intros _. by rewrite Hf.
    + by rewrite Hh.
    + intros x. by rewrite Hf.
Qed.

Lemma process_schedule k (s : SigmaW) : same_schedule s (final (process process_world k s)).
Proof. unfold process. apply (lift_world_schedule _ (record _ s)). Qed.

Lemma _refresh_consistent (s : SigmaW) :
  consistent s →
  consistent (final (_refresh process_world render_world s))
  ∧ (∀ x, x ∈ frames (final (_refresh process_world render_world s)) → x ∈ frames s)
  ∧ renderHighlightedNodesFrame (final (_refresh process_world render_world s))
    = renderHighlightedNodesFrame s.
Proof.
  intros C. unfold _refresh.
  set (m := if needToProcess s then process process_world false s
            else if needToSoftProcess s then process process_world true s
            else Done tt s).
  assert (Hm : same_schedule s (final m)).
  { unfold m. destruct (needToProcess s); [apply process_schedule|].
    destruct (needToSoftProcess s); [apply process_schedule|]. by repeat split. }
  destruct Hm as (Hf & Hn & Hr & Hh).
  assert (C1 : consistent (final m)) by (by eapply consistent_same).
  destruct m as [[] s1|e s1]; simpl in *.
  - set (s2 := set_needToSoftProcess false (set_needToProcess false s1)).
    assert (C2 : consistent s2) by (eapply consistent_same; [| | | |exact C1]; done).
    destruct (render_consistent s2 C2) as (C3 & _ & _ & Hh3 & Hsub).
    split; [done|]. split.
    + intros x Hx. apply Hsub in Hx. simpl in Hx. by rewrite <- Hf.
    + rewrite Hh3. simpl. done.
  - split; [done|]. split; [intros x; by rewrite Hf | done].
Qed.

Lemma run_callback_consistent cb (s : SigmaW) :
  consistent s → (∀ i, (i, cb) ∉ frames s) →
  consistent (final (run_callback process_world render_world overlay_world cb s)).
Proof.
  intros C Hno. destruct cb; simpl.
  - destruct (_refresh_consistent s C) as (C1 & Hsub & _).
    destruct (_refresh process_world render_world s) as [[] s1|e s1]; simpl in *; [|done].
    apply consistent_no_refresh; [done|].
    intros i Hi. apply Hsub in Hi. by apply Hno in Hi.
  - apply (consistent_same (set_renderHighlightedNodesFrame None s)); try done.
    by apply consistent_no_highlight.
Qed.

Lemma run_frame_consistent batch : ∀ (s : SigmaW),
  consistent s →
  consistent (run_frame process_world render_world overlay_world batch s).2.
Proof.
  induction batch as [|[id cb] rest IH]; intros s C; simpl; [done|].
  case_bool_decide as Hin; [|by apply IH].
  assert (C1 : consistent (final (run_callback process_world render_world overlay_world
                                    cb (cancelFrame id s)))).
  { apply run_callback_consistent; [by apply consistent_cancelFrame|].
    intros i. pose proof C as (_ & _ & Hr & Hh). destruct cb.
    - apply cancelFrame_refresh; [done | by apply Hr].
    - apply cancelFrame_highlight; [done | by apply Hh]. }
  destruct (run_callback _ _ _ cb (cancelFrame id s)) as [[] s1|e s1]; simpl in C1.
  - by apply IH.
  - specialize (IH s1 C1). by destruct (run_frame _ _ _ rest s1).
Qed.

Lemma handleMove_consistent h (s : SigmaW) : consistent s → consistent (handleMove h s).
Proof.
  intros C. unfold handleMove.
  destruct (_ && _ && _).
  - apply consistent_scheduleHighlightedNodesRender.
    destruct (key_truthy (hoveredNode s)); (eapply consistent_same; [| | | |exact C]; done).
  - destruct (_ && _); [|done].
    apply consistent_scheduleHighlightedNodesRender.
    eapply consistent_same; [| | | |exact C]; done.
Qed.

Lemma step_consistent (s s' : SigmaW) :
  step process_world render_world overlay_world s s' → consistent s → consistent s'.
Proof.
  intros [] C.
  - apply consistent__scheduleRefresh. eapply consistent_same; [| | | |exact C]; done.
  - apply _refresh_consistent. eapply consistent_same; [| | | |exact C]; done.
  - by apply consistent__scheduleRefresh.
  - apply consistent__scheduleRefresh. eapply consistent_same; [| | | |exact C]; done.
  - apply consistent__scheduleRefresh. eapply consistent_same; [| | | |exact C]; done.
  - apply consistent__scheduleRefresh. eapply consistent_same; [| | | |exact C]; done.
  - by apply handleMove_consistent.
  - eapply consistent_same; [| | | |exact C]; done.
  - by apply run_frame_consistent.
Qed.

Lemma reachable_consistent w (s : SigmaW) :
  reachable process_world render_world overlay_world w s → consistent s.
Proof.
  induction 1 as [|s s' _ IH Hstep]; [apply consistent_idle | by eapply step_consistent].
Qed.

Lemma scheduleRefresh_again (s : SigmaW) :
  is_Some (renderFrame s) → scheduleRefresh s = set_needToProcess true s.
Proof. intros [id H]. unfold scheduleRefresh, _scheduleRefresh. simpl. by rewrite H. Qed.

Lemma repeatedly_again n : ∀ s : SigmaW,
  is_Some (renderFrame s) → needToProcess s = true →
  repeatedly n scheduleRefresh s = s.
Proof.
  induction n as [|n IH]; intros s Ht Hp; simpl; [done|].
  rewrite scheduleRefresh_again by done.
  assert (E : set_needToProcess true s = s) by (destruct s; simpl in *; by subst).
  rewrite E. by apply IH.
Qed.

(** With no refresh token, a consistent state has an empty frame queue or
  one overlay callback. *)
Lemma frames_without_refresh (s : SigmaW) :
  consistent s → renderFrame s = None →
  frames s = []
  ∨ ∃ h, frames s = [(h, HighlightCallback)] ∧ (h < nextFrame s)%positive.
Proof.
  intros (N & Hb & Hr & Hh) Ht.
  destruct (frames s) as [|[h cb] l] eqn:E; [by left|]. right.
  destruct cb.
  { specialize (Hr h (ltac:(by left))). congruence. }
  exists h. split; [|by apply (Hb h HighlightCallback); left].
  destruct l as [|[h' cb'] l]; [done|]. exfalso.
  destruct cb'.
  - specialize (Hr h' (ltac:(by right; left))). congruence.
  - pose proof (Hh h (ltac:(by left))) as H1.
    pose proof (Hh h' (ltac:(by right; left))) as H2.
    assert (h' = h) by congruence. subst.
    simpl in N. apply NoDup_cons in N as [N _]. apply N. by left.
Qed.

Lemma run_frame_pending id cb rest (s : SigmaW) :
  (id, cb) ∈ frames s →
  run_frame process_world render_world overlay_world ((id, cb) :: rest) s
  = match run_callback process_world render_world overlay_world cb (cancelFrame id s) with
    | Done _ s' => run_frame process_world render_world overlay_world rest s'
    | Threw e s' =>
        let '(es, s'') := run_frame process_world render_world overlay_world rest s' in
        (e :: es, s'')
    end.
Proof. intros H. simpl. by rewrite bool_decide_eq_true_2. Qed.

Lemma run_highlight_callback (s : SigmaW) :
  run_callback process_world render_world overlay_world HighlightCallback s
  = Done tt (set_world (overlay_world (world s))
               (record [CallRenderHighlightedNodes; CallRenderEdgeLabels]
                  (set_renderHighlightedNodesFrame None s))).
Proof. reflexivity. Qed.

(** The refresh callback when the pass and the drawing return. *)
Lemma run_refresh_callback (s : SigmaW) w1 w2 :
  needToProcess s = true →
  process_world false (world s) = Done tt w1 →
  render_world w1 = Done tt w2 →
  ∃ s', run_callback process_world render_world overlay_world RefreshCallback s = Done tt s'
    ∧ calls s' = calls s ++ [CallProcess false; CallRender]
    ∧ renderFrame s' = None
    ∧ needToProcess s' = false ∧ needToSoftProcess s' = false
    ∧ frames s' = match renderFrame s with
                  | Some id => filter (λ p, p.1 ≠ id) (frames s)
                  | None => frames s
                  end.
Proof.
  intros Np Hp Hr. unfold run_callback, _refresh, process, render, lift_world.
  rewrite Np. simpl. rewrite Hp. simpl.
  destruct (renderFrame s); simpl; rewrite Hr; simpl;
    eexists; (split; [reflexivity|]); simpl; by rewrite <- app_assoc.
Qed.

(** C4: after [N >= 1] calls of [scheduleRefresh] on a renderer with no
  refresh pending, one refresh callback waits for the next frame (the queue
  gained exactly that callback) and the dirty flag is set; a call made while
  a token is pending only sets the flag; and when the frame fires, with the
  pass and the drawing returning, the frame makes exactly one call of
  [process] followed by one call of [render], leaving no token and no
  callback. *)
Theorem scheduleRefresh_coalesces (N : nat) (s : SigmaW) (w1 w2 : World) :
  (1 ≤ N)%nat →
  consistent s →
  renderFrame s = None →
  process_world false
    (match pending HighlightCallback s with
     | [] => world s
     | _ => overlay_world (world s)
     end) = Done tt w1 →
  render_world w1 = Done tt w2 →
  frames (repeatedly N scheduleRefresh s) = frames s ++ [(nextFrame s, RefreshCallback)]
  ∧ pending RefreshCallback (repeatedly N scheduleRefresh s) = [nextFrame s]
  ∧ renderFrame (repeatedly N scheduleRefresh s) = Some (nextFrame s)
  ∧ needToProcess (repeatedly N scheduleRefresh s) = true
  ∧ (∀ s1 : SigmaW, is_Some (renderFrame s1) →
       scheduleRefresh s1 = set_needToProcess true s1)
  ∧ ∃ s', frame process_world render_world overlay_world (repeatedly N scheduleRefresh s)
          = ([], s')
      ∧ filter is_pass (calls s')
        = filter is_pass (calls s) ++ [CallProcess false; CallRender]
      ∧ renderFrame s' = None
      ∧ needToProcess s' = false
      ∧ frames s' = [].
Proof.
  intros HN C Ht Hp Hr.
  destruct N as [|n]; [lia|]. simpl.
  set (s1 := scheduleRefresh s).
  assert (Hf1 : frames s1 = frames s ++ [(nextFrame s, RefreshCallback)]).
  { unfold s1, scheduleRefresh, _scheduleRefresh. simpl. by rewrite Ht. }
  assert (Ht1 : renderFrame s1 = Some (nextFrame s)).
  { unfold s1, scheduleRefresh, _scheduleRefresh. simpl. by rewrite Ht. }
  assert (Hp1 : needToProcess s1 = true).
  { unfold s1, scheduleRefresh, _scheduleRefresh. simpl. by rewrite Ht. }
  assert (Hw1 : world s1 = world s ∧ calls s1 = calls s).
  { unfold s1, scheduleRefresh, _scheduleRefresh. simpl. by rewrite Ht. }
  destruct Hw1 as [Hw1 Hc1].
  rewrite repeatedly_again by (by rewrite ?Ht1).
  split; [done|].
  pose proof (frames_without_refresh s C Ht) as Shape.
  split.
  { unfold pending. rewrite Hf1, filter_app, fmap_app.
    destruct Shape as [E|(h & E & _)]; rewrite E; done. }
  split; [done|]. split; [done|]. split; [apply scheduleRefresh_again|].
  unfold frame. rewrite Hf1.
  destruct Shape as [E|(h & E & Hlt)]; rewrite E; cbn [app].
  - (* the refresh callback alone *)
    rewrite run_frame_pending by (rewrite Hf1, E; by left).
    unfold pending in Hp. rewrite E in Hp. simpl in Hp.
    destruct (run_refresh_callback (cancelFrame (nextFrame s) s1) w1 w2)
      as (s2 & R & Hc2 & Ht2 & Hn2 & _ & Hf2); [done | by rewrite <- Hw1 in Hp | done |].
    rewrite R. cbn [run_frame]. exists s2. split; [done|].
    split; [rewrite Hc2; simpl; rewrite Hc1, filter_app; done|].
    split; [done|]. split; [done|].
    rewrite Hf2. simpl. rewrite Ht1, Hf1, E. simpl. by filter_tokens.
  - (* the overlay callback, registered earlier, runs first *)
    assert (Hne : nextFrame s ≠ h) by lia.
    rewrite run_frame_pending by (rewrite Hf1, E; by left).
    rewrite run_highlight_callback.
    set (s2 := set_world _ _).
    assert (Hf2 : frames s2 = [(nextFrame s, RefreshCallback)]).
    { unfold s2. simpl. rewrite Hf1, E. simpl. by filter_tokens. }
    rewrite run_frame_pending by (rewrite Hf2; by left).
    unfold pending in Hp. rewrite E in Hp. simpl in Hp.
    destruct (run_refresh_callback (cancelFrame (nextFrame s) s2) w1 w2)
      as (s3 & R & Hc3 & Ht3 & Hn3 & _ & Hf3).
    { unfold s2. simpl. done. }
    { unfold s2. simpl. by rewrite Hw1. }
    { done. }
    rewrite R. cbn [run_frame]. exists s3. split; [done|].
    split.
    { rewrite Hc3. unfold s2. simpl. rewrite Hc1, !filter_app. simpl.
      by rewrite app_nil_r. }
    split; [done|]. split; [done|].
    rewrite Hf3. simpl. rewrite Ht1, Hf1, E. simpl. by filter_tokens.
Qed.

(** C8 (amended): in every state a renderer can reach, at most one overlay
  callback waits for the next frame; [scheduleHighlightedNodesRender] does
  nothing while a refresh token is pending; a mouse move made while an
  overlay callback is pending, whether or not it changes the hovered node,
  leaves the frame queue and the overlay token as they are (the callback is
  neither canceled nor registered again); and the overlay token is reset by
  the callback itself, when it fires. *)
Theorem highlight_channel :
  (∀ w (s : SigmaW),
     reachable process_world render_world overlay_world w s →
     (List.length (pending HighlightCallback s) ≤ 1)%nat)
  ∧ (∀ s : SigmaW, is_Some (renderFrame s) → scheduleHighlightedNodesRender s = s)
  ∧ (∀ h (s : SigmaW),
       is_Some (renderHighlightedNodesFrame s) →
       frames (handleMove h s) = frames s
       ∧ renderHighlightedNodesFrame (handleMove h s) = renderHighlightedNodesFrame s)
  ∧ (∀ s : SigmaW,
       ∃ s', run_callback process_world render_world overlay_world HighlightCallback s
             = Done tt s'
         ∧ renderHighlightedNodesFrame s' = None).
Proof.
  split; [|split; [|split]].
  - intros w s R. apply consistent_pending. by eapply reachable_consistent.
  - intros s [id H]. unfold scheduleHighlightedNodesRender.
    rewrite (bool_decide_eq_true_2 (is_Some (renderFrame s))) by (by rewrite H).
    by rewrite orb_true_r.
  - intros h s [id H].
    assert (K : ∀ s1 : SigmaW,
              renderHighlightedNodesFrame s1 = Some id →
              scheduleHighlightedNodesRender s1 = s1).
    { intros s1 H1. unfold scheduleHighlightedNodesRender.
      by rewrite (bool_decide_eq_true_2 (is_Some (renderHighlightedNodesFrame s1)))
        by (by rewrite H1). }
    unfold handleMove. destruct (_ && _ && _).
    + rewrite K; [by destruct (key_truthy (hoveredNode s))|].
      by destruct (key_truthy (hoveredNode s)).
    + destruct (_ && _); [|done]. by rewrite K.
  - intros s. eexists. split; [apply run_highlight_callback|done].
Qed.

End WithWorld.

(** The theorem on a renderer over two [circle] nodes whose [needToProcess]
  flag is set: the full pass and one render, both flags cleared. *)
Lemma _refresh_runs_witness :
  ∃ s', _refresh Samples.sampleProcess Samples.sampleRender
          (set_needToProcess true Samples.idleRenderer) = Done tt s'
    ∧ calls s' = [CallProcess false; CallRender]
    ∧ needToProcess s' = false
    ∧ needToSoftProcess s' = false.
Proof.
  destruct (_refresh_runs Samples.sampleProcess Samples.sampleRender
              (set_needToProcess true Samples.idleRenderer)
              (final (Samples.sampleProcess false (Samples.freshSigma Samples.twoCircles)))
              (final (Samples.sampleProcess false (Samples.freshSigma Samples.twoCircles))))
    as (s' & R & Hc & Hp & Hs & _).
  - vm_compute. reflexivity.
  - reflexivity.
  - exists s'. split; [exact R|]. split; [exact Hc|]. split; [exact Hp|exact Hs].
Defined.

(** The theorem for three calls on the renderer that hovers [a], where an
  overlay callback already waits. *)
Lemma scheduleRefresh_coalesces_witness :
  pending RefreshCallback (repeatedly 3 scheduleRefresh Samples.hoveringA) = [2%positive]
  ∧ ∃ s', frame Samples.sampleProcess Samples.sampleRender Samples.sampleOverlay
            (repeatedly 3 scheduleRefresh Samples.hoveringA) = ([], s')
      ∧ filter is_pass (calls s') = [CallProcess false; CallRender].
Proof.
  destruct (scheduleRefresh_coalesces Samples.sampleProcess Samples.sampleRender
              Samples.sampleOverlay 3 Samples.hoveringA
              (final (Samples.sampleProcess false (Samples.freshSigma Samples.twoCircles)))
              (final (Samples.sampleProcess false (Samples.freshSigma Samples.twoCircles))))
    as (_ & Hp & _ & _ & _ & s' & R & Hc & _).
  - lia.
  - apply handleMove_consistent, consistent_idle.
  - reflexivity.
  - vm_compute. reflexivity.
  - reflexivity.
  - split; [exact Hp|]. exists s'. split; [exact R|exact Hc].
Defined.

(** C8, as stated, fails: the mouse is on [a] and an overlay callback waits
  under token 1; the mouse then moves onto [b] before the frame fires; the
  hovered node changes and the callback is still in the queue, under the
  same token. *)
Lemma hover_change_keeps_callback :
  hoveredNode Samples.hoveringA = Some "a"
  ∧ frames Samples.hoveringA = [(1%positive, HighlightCallback)]
  ∧ renderHighlightedNodesFrame Samples.hoveringA = Some 1%positive
  ∧ hoveredNode (handleMove Samples.ontoB Samples.hoveringA) = Some "b"
  ∧ frames (handleMove Samples.ontoB Samples.hoveringA) = [(1%positive, HighlightCallback)]
  ∧ renderHighlightedNodesFrame (handleMove Samples.ontoB Samples.hoveringA)
    = Some 1%positive.
Proof. vm_compute. done. Qed.

End SchedulerFacts.

(** ** Coordinates and camera *)

Module TransformFacts.
Import Transform.
Local Open Scope Qc_scope.

Lemma two_nonzero : two ≠ 0.
Proof. intros H. apply (f_equal this) in H. vm_compute in H. discriminate. Qed.

Lemma or_num_nonzero a : or_num a 1 ≠ 0.
Proof.
  unfold or_num. case_bool_decide; [|done].
  intros E. apply (f_equal this) in E. vm_compute in E. discriminate.
Qed.

(** C10: both dimensions returned by [getGraphDimensions] are nonzero; on
  each axis the result is the span of the custom bounding box when there is
  one, of the node extent otherwise, and 1 when that span is zero. *)
Theorem getGraphDimensions_nonzero (s : Sigma) :
  width (getGraphDimensions s) ≠ 0
  ∧ height (getGraphDimensions s) ≠ 0
  ∧ match customBBox s with
    | Some box =>
        width (getGraphDimensions s)
        = (if bool_decide ((bbox_x box).2 - (bbox_x box).1 = 0) then 1
           else (bbox_x box).2 - (bbox_x box).1)
        ∧ height (getGraphDimensions s)
          = (if bool_decide ((bbox_y box).2 - (bbox_y box).1 = 0) then 1
             else (bbox_y box).2 - (bbox_y box).1)
    | None =>
        width (getGraphDimensions s)
        = (if bool_decide ((bbox_x (nodeExtent s)).2 - (bbox_x (nodeExtent s)).1 = 0) then 1
           else (bbox_x (nodeExtent s)).2 - (bbox_x (nodeExtent s)).1)
        ∧ height (getGraphDimensions s)
          = (if bool_decide ((bbox_y (nodeExtent s)).2 - (bbox_y (nodeExtent s)).1 = 0) then 1
             else (bbox_y (nodeExtent s)).2 - (bbox_y (nodeExtent s)).1)
    end.
Proof.
  split; [apply or_num_nonzero|]. split; [apply or_num_nonzero|].
  unfold getGraphDimensions. by destruct (customBBox s).
Qed.

Section WithMatrixFromCamera.
Variable matrixFromCamera : CameraState → Dimensions → Dimensions → Qc → bool → Matrix.

(** With no override, [framedGraphToViewport] applies the stored matrix. *)
Lemma framedGraphToViewport_stored c (s : Sigma) :
  framedGraphToViewport matrixFromCamera c no_override s
  = {| x := (1 + (multiplyVec (matrix s) (x c, y c, 1)).1.1) * sigma_width s / two;
       y := (1 - (multiplyVec (matrix s) (x c, y c, 1)).1.2) * sigma_height s / two |}.
Proof. reflexivity. Qed.

(** With no override, [viewportToFramedGraph] does not read the stored
  inverse matrix: it applies the inverse matrix computed from the camera
  state of the moment. *)
Lemma viewportToFramedGraph_recomputed c (s : Sigma) :
  viewportToFramedGraph matrixFromCamera c no_override s
  = let m := matrixFromCamera (camera s) (getDimensions s) (getGraphDimensions s)
               (padding_of no_override s) true in
    let v := multiplyVec m
               (x c / sigma_width s * two - 1, 1 - y c / sigma_height s * two, 1) in
    {| x := v.1.1; y := v.1.2 |}.
Proof. reflexivity. Qed.

Lemma viewport_vector (a b w h : Qc) :
  w ≠ 0 → h ≠ 0 →
  ((1 + a) * w / two / w * two - 1 = a) ∧ (1 - (1 - b) * h / two / h * two = b).
Proof.
  intros Hw Hh. pose proof two_nonzero. split; field; done.
Qed.

(** The round trip with no override, in exact arithmetic: the stored forward
  matrix, then the inverse matrix of the current camera state. *)
Lemma roundtrip_no_override c (s : Sigma) :
  sigma_width s ≠ 0 → sigma_height s ≠ 0 →
  viewportToFramedGraph matrixFromCamera
    (framedGraphToViewport matrixFromCamera c no_override s) no_override s
  = let m := matrixFromCamera (camera s) (getDimensions s) (getGraphDimensions s)
               (padding_of no_override s) true in
    let v := multiplyVec m ((multiplyVec (matrix s) (x c, y c, 1)).1.1,
                            (multiplyVec (matrix s) (x c, y c, 1)).1.2, 1) in
    {| x := v.1.1; y := v.1.2 |}.
Proof.
  intros Hw Hh. rewrite viewportToFramedGraph_recomputed, framedGraphToViewport_stored.
  cbv zeta. cbn [x y].
  destruct (viewport_vector (multiplyVec (matrix s) (x c, y c, 1)).1.1
              (multiplyVec (matrix s) (x c, y c, 1)).1.2 _ _ Hw Hh) as [-> ->].
  done.
Qed.

End WithMatrixFromCamera.

Lemma coordinates_eq (a b c d : Qc) :
  (a == c)%Q → (b == d)%Q → {| x := a; y := b |} = {| x := c; y := d |}.
Proof. intros H1 H2. f_equal; by apply Qc_is_canon. Qed.

(** C2, on the code: the camera has moved since the last render and the
  next frame has not fired.  With no override the round trip of the origin
  gives [(1, 0)]: [framedGraphToViewport] used the stored matrix and
  [viewportToFramedGraph] the inverse matrix of the moved camera.  With the
  stored inverse matrix handed over explicitly, the round trip gives the
  origin back. *)
Theorem roundtrip_after_camera_move :
  viewportToFramedGraph unrotatedMatrixFromCamera
    (framedGraphToViewport unrotatedMatrixFromCamera Samples.origin no_override
       Samples.movedSinceRender)
    no_override Samples.movedSinceRender
  = {| x := Q2Qc 1; y := Q2Qc 0 |}
  ∧ viewportToFramedGraph unrotatedMatrixFromCamera
      (framedGraphToViewport unrotatedMatrixFromCamera Samples.origin no_override
         Samples.movedSinceRender)
      (withMatrix (invMatrix Samples.movedSinceRender)) Samples.movedSinceRender
    = Samples.origin.
Proof.
  split; apply coordinates_eq; vm_compute; reflexivity.
Qed.

End TransformFacts.

(** ** The display-data getters *)

Module StoreFacts.
Import Store.

Lemma alloc_spec o (s : Sigma) :
  store s !! (alloc o s).1 = None
  ∧ store (alloc o s).2 !! (alloc o s).1 = Some o
  ∧ (∀ r', r' ≠ (alloc o s).1 → store (alloc o s).2 !! r' = store s !! r')
  ∧ nodeDataCache (alloc o s).2 = nodeDataCache s
  ∧ edgeDataCache (alloc o s).2 = edgeDataCache s.
Proof.
  unfold alloc. simpl.
  pose proof (is_fresh (dom (store s))) as F. rewrite not_elem_of_dom in F.
  split; [done|]. split; [by rewrite lookup_insert_eq|].
  split; [|done]. intros r' Hne. by rewrite lookup_insert_ne.
Qed.

(** A reference that no cache entry names can be written to without any
  change of what the caches show. *)
Lemma mutate_unreferenced r o (s : Sigma) key :
  (∀ k, nodeDataCache s !! k ≠ Some r) → (∀ k, edgeDataCache s !! k ≠ Some r) →
  cachedNode key (mutate r o s) = cachedNode key s
  ∧ cachedEdge key (mutate r o s) = cachedEdge key s.
Proof.
  intros Hn He. unfold cachedNode, cachedEdge, mutate. simpl. split.
  - destruct (nodeDataCache s !! key) as [r'|] eqn:E; simpl; [|done].
    rewrite lookup_insert_ne; [done|]. intros <-. by apply (Hn key).
  - destruct (edgeDataCache s !! key) as [r'|] eqn:E; simpl; [|done].
    rewrite lookup_insert_ne; [done|]. intros <-. by apply (He key).
Qed.

Lemma copy_if_truthy_eq found (s : Sigma) :
  copy_if_truthy found s
  = if found_truthy found
    then (Some (alloc (own_enumerable (store s) found) s).1,
          (alloc (own_enumerable (store s) found) s).2)
    else (None, s).
Proof.
  unfold copy_if_truthy. destruct (found_truthy found); [|done].
  by destruct (alloc (own_enumerable (store s) found) s).
Qed.

(** The getters on a key that has an entry: the result is a new object that
  holds the own properties of the cached one, and whatever is then written
  to it, the display data the renderer finds in its caches is the same as
  before the call. *)
Lemma getDisplayData_of_entry (key : string) (s : Sigma) :
  well_formed s →
  (∀ c, nodeDataCache s !! key = Some c →
     ∃ r, (getNodeDisplayData key s).1 = Some r
       ∧ store s !! r = None
       ∧ store (getNodeDisplayData key s).2 !! r = cachedNode key s
       ∧ ∀ o k, cachedNode k (mutate r o (getNodeDisplayData key s).2) = cachedNode k s
                ∧ cachedEdge k (mutate r o (getNodeDisplayData key s).2) = cachedEdge k s)
  ∧ (∀ c, edgeDataCache s !! key = Some c →
       ∃ r, (getEdgeDisplayData key s).1 = Some r
         ∧ store s !! r = None
         ∧ store (getEdgeDisplayData key s).2 !! r = cachedEdge key s
         ∧ ∀ o k, cachedNode k (mutate r o (getEdgeDisplayData key s).2) = cachedNode k s
                  ∧ cachedEdge k (mutate r o (getEdgeDisplayData key s).2) = cachedEdge k s).
Proof.
  intros [Wn We].
  assert (Copy : ∀ c, is_Some (store s !! c) →
    let o := default ∅ (store s !! c) in
    let r := (alloc o s).1 in let s' := (alloc o s).2 in
    store s !! r = None
    ∧ store s' !! r = store s !! c
    ∧ ∀ o' k, cachedNode k (mutate r o' s') = cachedNode k s
              ∧ cachedEdge k (mutate r o' s') = cachedEdge k s).
  { intros c [oc Hc] o r s'.
    destruct (alloc_spec o s) as (Hfresh & Hcopy & Hother & Hnc & Hec).
    fold r s' in Hfresh, Hcopy, Hother, Hnc, Hec.
    split; [done|]. split; [unfold o in Hcopy; by rewrite Hcopy, Hc|].
    intros o' k.
    assert (Hn : ∀ k', nodeDataCache s' !! k' ≠ Some r).
    { intros k' E. rewrite Hnc in E. apply Wn in E as [? E]. congruence. }
    assert (He : ∀ k', edgeDataCache s' !! k' ≠ Some r).
    { intros k' E. rewrite Hec in E. apply We in E as [? E]. congruence. }
    destruct (mutate_unreferenced r o' s' k Hn He) as [-> ->].
    unfold cachedNode, cachedEdge. rewrite Hnc, Hec. split.
    - destruct (nodeDataCache s !! k) as [r'|] eqn:E; simpl; [|done].
      apply Hother. intros ->. apply Wn in E as [? E]. congruence.
    - destruct (edgeDataCache s !! k) as [r'|] eqn:E; simpl; [|done].
      apply Hother. intros ->. apply We in E as [? E]. congruence. }
  split; intros c E.
  - unfold getNodeDisplayData, lookup_cache, cachedNode. rewrite E.
    rewrite copy_if_truthy_eq. simpl. eexists. split; [reflexivity|].
    apply (Copy c (Wn key c E)).
  - unfold getEdgeDisplayData, lookup_cache, cachedEdge. rewrite E.
    rewrite copy_if_truthy_eq. simpl. eexists. split; [reflexivity|].
    apply (Copy c (We key c E)).
Qed.

(** C9, on the code: the caches are plain objects, and the getters read
  them by a key the caller chooses.  On a renderer whose node cache holds
  the one node [a] and whose edge cache is empty, the key [constructor] has
  no entry in the node cache and [getNodeDisplayData] returns a new empty
  object for it, not [undefined]: the lookup finds the function inherited
  from [Object.prototype], which is truthy and has no enumerable property to
  copy.  The same holds of [getEdgeDisplayData] and the key [toString].  A
  key that names no member of [Object.prototype], the key [b], gives
  [undefined], and the key [a] a copy of the cached display data. *)
Theorem getDisplayData_inherited_key :
  nodeDataCache Samples.oneCachedNode !! "constructor" = None
  ∧ (∃ r, (getNodeDisplayData "constructor" Samples.oneCachedNode).1 = Some r
          ∧ store Samples.oneCachedNode !! r = None
          ∧ store (getNodeDisplayData "constructor" Samples.oneCachedNode).2 !! r = Some ∅)
  ∧ edgeDataCache Samples.oneCachedNode !! "toString" = None
  ∧ (∃ r, (getEdgeDisplayData "toString" Samples.oneCachedNode).1 = Some r
          ∧ store Samples.oneCachedNode !! r = None
          ∧ store (getEdgeDisplayData "toString" Samples.oneCachedNode).2 !! r = Some ∅)
  ∧ (getNodeDisplayData "b" Samples.oneCachedNode).1 = None
  ∧ (∃ r, (getNodeDisplayData "a" Samples.oneCachedNode).1 = Some r
          ∧ store Samples.oneCachedNode !! r = None
          ∧ store (getNodeDisplayData "a" Samples.oneCachedNode).2 !! r
            = Some Samples.emptyLabelNode).
Proof.
  split; [reflexivity|]. split; [eexists; vm_compute; done|].
  split; [reflexivity|]. split; [eexists; vm_compute; done|].
  split; [reflexivity|]. eexists; vm_compute; done.
Qed.

End StoreFacts.
